(** * Metropolis.h: the Metropolis-Hastings functor of CDT-plusplus

    A shallow embedding of [class Metropolis] (constructor, accessors,
    [CalculateA1], [CalculateA2], [attempt_move], [operator()]) and the
    properties of its bookkeeping.

    - [uintmax_t] is a 64-bit unsigned integer: a [Z] reduced modulo [2^64].
    - [Gmpzf] is CGAL's exact floating-point number type (values [m * 2^e]):
      its values and its exact [+], [-], [*], [<=] are those of [Q].
    - an [mpfr_t] of precision [p] rounded with [MPFR_RNDD] is a rational
      rounded toward minus infinity to [p] significant bits.
    - the collaborators that live outside Metropolis.h (S3Action.h,
      S3ErgodicMoves.h, the random source) are an interface, [External]. *)

From Stdlib Require Import ZArith QArith Qround Qabs Qpower List Lia Lqa Bool.
Import ListNotations.

Local Open Scope Z_scope.

(** ** Machine integers *)

Module UIntMax.

(** [uintmax_t] on the LP64 targets of the project. *)
Definition width : Z := 64.
Definition modulus : Z := 2 ^ width.

Definition wrap (z : Z) : Z := z mod modulus.

Definition add (a b : Z) : Z := wrap (a + b).
Definition sub (a b : Z) : Z := wrap (a - b).

(** [++x] and [--x]. *)
Definition incr (a : Z) : Z := add a 1.
Definition decr (a : Z) : Z := sub a 1.

Definition in_range (z : Z) : Prop := 0 <= z < modulus.

(** [static_cast<uintmax_t>(v.size())]. *)
Definition of_size {A : Type} (l : list A) : Z := wrap (Z.of_nat (length l)).

End UIntMax.

(** [auto this_move = 5;] makes [this_move] an [int]; assigning a [uintmax_t]
    to it keeps the low 32 bits, read as two's complement. *)
Definition int_of_uintmax (z : Z) : Z :=
  let r := z mod 2 ^ 32 in
  if r <? 2 ^ 31 then r else r - 2 ^ 32.

(** An [int] or [uintmax_t] argument passed where [unsigned long] is
    expected ([mpfr_init_set_ui]). *)
Definition ulong_of (z : Z) : Z := z mod 2 ^ 64.

(** ** Rounding toward minus infinity *)

Local Open Scope Q_scope.

(** [floor (log2 x)] for [x > 0]. *)
Definition Qilog2 (x : Q) : Z :=
  let k := (Z.log2 (Qnum x) - Z.log2 (Zpos (Qden x)))%Z in
  if Qle_bool (2 ^ k) x then k else (k - 1)%Z.

(** The largest number with at most [p] significant bits that is [<= x]:
    the result of an MPFR operation with [MPFR_RNDD] whose exact value is
    [x] and whose destination has precision [p]. *)
Definition round_down (p : Z) (x : Q) : Q :=
  if Qeq_bool x 0 then 0
  else
    let e := (Qilog2 (Qabs x) - p + 1)%Z in
    inject_Z (Qfloor (x / 2 ^ e)) * 2 ^ e.

(** [mpfr_get_d (x, MPFR_RNDD)]: the largest [double] that is [<= x].
    Subnormals lie on the grid [2^-1074]; above the largest finite double
    the result is that double.  (Below [-DBL_MAX] the C function yields
    minus infinity, which no caller here can reach: the arguments are
    quotients of counters and exponentials.) *)
Definition DBL_MAX : Q := (2 ^ 53 - 1) * 2 ^ 971.

Definition mpfr_get_d_RNDD (x : Q) : Q :=
  if Qle_bool (2 ^ 1024) x then DBL_MAX
  else if Qlt_le_dec (Qabs x) (2 ^ (-1022))
       then inject_Z (Qfloor (x * 2 ^ 1074)) / 2 ^ 1074
       else round_down 53 x.

(** ** Data model *)

Local Open Scope Z_scope.

(** [enum class move_type]. *)
Inductive move_type : Type :=
| TWO_THREE
| THREE_TWO
| TWO_SIX
| SIX_TWO
| FOUR_FOUR.

(** [static_cast<size_t>(move)]. *)
Definition move_index (m : move_type) : Z :=
  match m with
  | TWO_THREE => 0
  | THREE_TWO => 1
  | TWO_SIX => 2
  | SIX_TWO => 3
  | FOUR_FOUR => 4
  end.

(** [static_cast<move_type>(move_choice)]; an enumerator exists for
    [0..4] only. *)
Definition move_of_choice (c : Z) : option move_type :=
  match c with
  | 0 => Some TWO_THREE
  | 1 => Some THREE_TWO
  | 2 => Some TWO_SIX
  | 3 => Some SIX_TWO
  | 4 => Some FOUR_FOUR
  | _ => None
  end.

(** [move_tuple]: five [uintmax_t] counters, read with [std::get<i>]. *)
Record move_tuple : Type := mk_move_tuple {
  get0 : Z;
  get1 : Z;
  get2 : Z;
  get3 : Z;
  get4 : Z
}.

Definition get (m : move_type) (t : move_tuple) : Z :=
  match m with
  | TWO_THREE => get0 t
  | THREE_TWO => get1 t
  | TWO_SIX => get2 t
  | SIX_TWO => get3 t
  | FOUR_FOUR => get4 t
  end.

(** [++std::get<i>(t)]. *)
Definition incr_get (m : move_type) (t : move_tuple) : move_tuple :=
  match m with
  | TWO_THREE => mk_move_tuple (UIntMax.incr (get0 t)) (get1 t) (get2 t) (get3 t) (get4 t)
  | THREE_TWO => mk_move_tuple (get0 t) (UIntMax.incr (get1 t)) (get2 t) (get3 t) (get4 t)
  | TWO_SIX => mk_move_tuple (get0 t) (get1 t) (UIntMax.incr (get2 t)) (get3 t) (get4 t)
  | SIX_TWO => mk_move_tuple (get0 t) (get1 t) (get2 t) (UIntMax.incr (get3 t)) (get4 t)
  | FOUR_FOUR => mk_move_tuple (get0 t) (get1 t) (get2 t) (get3 t) (UIntMax.incr (get4 t))
  end.

Definition zero_tuple : move_tuple := mk_move_tuple 0 0 0 0 0.

(** [Gmpzf]: exact arithmetic and comparison on numbers [m * 2^e]. *)
Definition Gmpzf : Type := Q.

(** ** Collaborators outside Metropolis.h

    S3Action.h ([S3_bulk_action], [Gmpzf_to_double]), S3ErgodicMoves.h
    (the move executors and the classifiers), MPFR's exponential and the
    constant [PRECISION] are used by the class and defined elsewhere. *)
Class External : Type := {
  (** [Delaunay], behind [universe_ptr_]. *)
  Universe : Type;
  Long_double : Type;
  Cell_handle : Type;
  Edge_tuple : Type;
  (** [extern const unsigned PRECISION]. *)
  PRECISION : Z;
  (** Action Evaluator. *)
  S3_bulk_action : Z -> Z -> Z -> Long_double -> Long_double -> Long_double -> Gmpzf;
  Gmpzf_to_double : Gmpzf -> Q;
  (** [mpfr_exp (rop, op, MPFR_RNDD)] at the precision of [rop]. *)
  mpfr_exp_RNDD : Z -> Q -> Q;
  (** Move Classifier. *)
  classify_simplices :
    Universe -> list Cell_handle * list Cell_handle * list Cell_handle;
  classify_edges : Universe -> list Edge_tuple * Z;
  (** Move Executor: each takes the triangulation, the movable elements and
      [attempted_moves_] by reference, and hands the triangulation back. *)
  make_23_move :
    Universe -> list Cell_handle * list Cell_handle * list Cell_handle ->
    move_tuple -> Universe * move_tuple;
  make_32_move :
    Universe -> list Edge_tuple * Z -> move_tuple -> Universe * move_tuple;
  make_26_move :
    Universe -> list Cell_handle * list Cell_handle * list Cell_handle ->
    move_tuple -> Universe * move_tuple
}.

(** What an observer of a call can see: which collaborator was invoked,
    and on what. *)
Inductive event : Type :=
| Ev_S3_bulk_action (N1_TL N3_31 N3_22 : Z)
| Ev_make_move (m : move_type)
| Ev_attempt_move (m : move_type).

Definition is_action_call (e : event) : bool :=
  match e with Ev_S3_bulk_action _ _ _ => true | _ => false end.

Definition is_executor_call (e : event) : bool :=
  match e with Ev_make_move _ => true | _ => false end.

Definition is_attempt (e : event) : bool :=
  match e with Ev_attempt_move _ => true | _ => false end.

Definition is_attempt_of (m : move_type) (e : event) : bool :=
  match e with
  | Ev_attempt_move m' => move_index m =? move_index m'
  | _ => false
  end.

Definition is_executor_of (m : move_type) (e : event) : bool :=
  match e with
  | Ev_make_move m' => move_index m =? move_index m'
  | _ => false
  end.

Section Metropolis.

Context {ext : External}.

Definition Simplex_types : Type :=
  list Cell_handle * list Cell_handle * list Cell_handle.
Definition Edge_types : Type := list Edge_tuple * Z.

(** The data members of [class Metropolis]. *)
Record Metropolis : Type := mk_Metropolis {
  universe_ptr_ : Universe;
  Alpha_ : Long_double;
  K_ : Long_double;
  Lambda_ : Long_double;
  N1_TL_ : Z;
  N3_31_ : Z;
  N3_22_ : Z;
  passes_ : Z;
  output_every_n_passes_ : Z;
  attempted_moves_ : move_tuple;
  successful_moves_ : move_tuple;
  simplex_types_ : Simplex_types;
  edge_types_ : Edge_types
}.

(** The constructor: the member initialisers and the defaults of the
    declarations ([universe] is the default triangulation). *)
Definition Metropolis_ctor (universe : Universe)
    (Alpha K Lambda : Long_double) (passes output_every_n_passes : Z)
    (simplex_types0 : Simplex_types) (edge_types0 : Edge_types) : Metropolis :=
  {| universe_ptr_ := universe;
     Alpha_ := Alpha; K_ := K; Lambda_ := Lambda;
     N1_TL_ := 0; N3_31_ := 0; N3_22_ := 0;
     passes_ := passes; output_every_n_passes_ := output_every_n_passes;
     attempted_moves_ := zero_tuple;
     successful_moves_ := zero_tuple;
     simplex_types_ := simplex_types0;
     edge_types_ := edge_types0 |}.

(** *** Accessors *)

Definition Passes (s : Metropolis) : Z := passes_ s.
Definition Output (s : Metropolis) : Z := output_every_n_passes_ s.

Definition TotalMoves (s : Metropolis) : Z :=
  UIntMax.add (UIntMax.add (UIntMax.add (UIntMax.add
    (get0 (attempted_moves_ s)) (get1 (attempted_moves_ s)))
    (get2 (attempted_moves_ s))) (get3 (attempted_moves_ s)))
    (get4 (attempted_moves_ s)).

Definition TwoThreeMoves (s : Metropolis) : Z := get0 (attempted_moves_ s).
Definition SuccessfulTwoThreeMoves (s : Metropolis) : Z := get0 (successful_moves_ s).
Definition ThreeTwoMoves (s : Metropolis) : Z := get1 (attempted_moves_ s).
Definition SuccessfulThreeTwoMoves (s : Metropolis) : Z := get1 (successful_moves_ s).
Definition TwoSixMoves (s : Metropolis) : Z := get2 (attempted_moves_ s).
Definition SuccessfulTwoSixMoves (s : Metropolis) : Z := get2 (successful_moves_ s).
Definition SixTwoMoves (s : Metropolis) : Z := get3 (attempted_moves_ s).
Definition SuccessfulSixTwoMoves (s : Metropolis) : Z := get3 (attempted_moves_ s).
Definition FourFourMoves (s : Metropolis) : Z := get4 (attempted_moves_ s).
Definition SuccessfulFourFourMoves (s : Metropolis) : Z := get4 (attempted_moves_ s).

Definition TimelikeEdges (s : Metropolis) : Z := N1_TL_ s.
Definition ThreeOneSimplices (s : Metropolis) : Z := N3_31_ s.
Definition TwoTwoSimplices (s : Metropolis) : Z := N3_22_ s.
Definition CurrentTotalSimplices (s : Metropolis) : Z :=
  UIntMax.add (N3_31_ s) (N3_22_ s).

(** *** Field updates *)

Definition set_N1_TL (v : Z) (s : Metropolis) : Metropolis :=
  mk_Metropolis (universe_ptr_ s) (Alpha_ s) (K_ s) (Lambda_ s)
    v (N3_31_ s) (N3_22_ s) (passes_ s) (output_every_n_passes_ s)
    (attempted_moves_ s) (successful_moves_ s) (simplex_types_ s) (edge_types_ s).

Definition set_N3_31 (v : Z) (s : Metropolis) : Metropolis :=
  mk_Metropolis (universe_ptr_ s) (Alpha_ s) (K_ s) (Lambda_ s)
    (N1_TL_ s) v (N3_22_ s) (passes_ s) (output_every_n_passes_ s)
    (attempted_moves_ s) (successful_moves_ s) (simplex_types_ s) (edge_types_ s).

Definition set_N3_22 (v : Z) (s : Metropolis) : Metropolis :=
  mk_Metropolis (universe_ptr_ s) (Alpha_ s) (K_ s) (Lambda_ s)
    (N1_TL_ s) (N3_31_ s) v (passes_ s) (output_every_n_passes_ s)
    (attempted_moves_ s) (successful_moves_ s) (simplex_types_ s) (edge_types_ s).

Definition set_attempted (v : move_tuple) (s : Metropolis) : Metropolis :=
  mk_Metropolis (universe_ptr_ s) (Alpha_ s) (K_ s) (Lambda_ s)
    (N1_TL_ s) (N3_31_ s) (N3_22_ s) (passes_ s) (output_every_n_passes_ s)
    v (successful_moves_ s) (simplex_types_ s) (edge_types_ s).

Definition set_successful (v : move_tuple) (s : Metropolis) : Metropolis :=
  mk_Metropolis (universe_ptr_ s) (Alpha_ s) (K_ s) (Lambda_ s)
    (N1_TL_ s) (N3_31_ s) (N3_22_ s) (passes_ s) (output_every_n_passes_ s)
    (attempted_moves_ s) v (simplex_types_ s) (edge_types_ s).

Definition set_universe (v : Universe) (s : Metropolis) : Metropolis :=
  mk_Metropolis v (Alpha_ s) (K_ s) (Lambda_ s)
    (N1_TL_ s) (N3_31_ s) (N3_22_ s) (passes_ s) (output_every_n_passes_ s)
    (attempted_moves_ s) (successful_moves_ s) (simplex_types_ s) (edge_types_ s).

Definition set_simplex_types (v : Simplex_types) (s : Metropolis) : Metropolis :=
  mk_Metropolis (universe_ptr_ s) (Alpha_ s) (K_ s) (Lambda_ s)
    (N1_TL_ s) (N3_31_ s) (N3_22_ s) (passes_ s) (output_every_n_passes_ s)
    (attempted_moves_ s) (successful_moves_ s) v (edge_types_ s).

Definition set_edge_types (v : Edge_types) (s : Metropolis) : Metropolis :=
  mk_Metropolis (universe_ptr_ s) (Alpha_ s) (K_ s) (Lambda_ s)
    (N1_TL_ s) (N3_31_ s) (N3_22_ s) (passes_ s) (output_every_n_passes_ s)
    (attempted_moves_ s) (successful_moves_ s) (simplex_types_ s) v.

(** ** Member functions as computations on the object

    A member function reads and writes the object, may call collaborators
    (logged as events) and may leave the defined behaviour of the
    language ([None]). *)
Definition M (A : Type) : Type :=
  Metropolis -> option (A * Metropolis * list event).

Definition ret {A} (a : A) : M A := fun s => Some (a, s, []).

Definition bind {A B} (c : M A) (k : A -> M B) : M B :=
  fun s =>
    match c s with
    | None => None
    | Some (a, s1, t1) =>
        match k a s1 with
        | None => None
        | Some (b, s2, t2) => Some (b, s2, t1 ++ t2)
        end
    end.

Definition read {A} (f : Metropolis -> A) : M A := fun s => Some (f s, s, []).
Definition modify (f : Metropolis -> Metropolis) : M unit :=
  fun s => Some (tt, f s, []).
Definition emit (e : event) : M unit := fun s => Some (tt, s, [e]).
Definition undefined {A} : M A := fun _ => None.

(** A [const] member function that can fail. *)
Definition read_opt {A} (f : Metropolis -> option A) : M A :=
  fun s => match f s with Some a => Some (a, s, []) | None => None end.

(** A [const] member function that calls collaborators. *)
Definition read_log {A} (f : Metropolis -> A * list event) : M A :=
  fun s => Some (fst (f s), s, snd (f s)).

End Metropolis.

Declare Scope metro_scope.
Delimit Scope metro_scope with metro.
Notation "x <- c ;; k" := (bind c (fun x => k))
  (at level 61, c at next level, right associativity) : metro_scope.
Notation "c ;; k" := (bind c (fun _ => k))
  (at level 61, right associativity) : metro_scope.

(** ** MPFR steps used by the ratios *)

Local Open Scope Q_scope.

(** [mpfr_init_set_ui (r, n, MPFR_RNDD)] at the default precision [p]. *)
Definition mpfr_set_ui_RNDD (p : Z) (n : Z) : Q :=
  round_down p (inject_Z (ulong_of n)).

(** [mpfr_init_set_d (r, d, MPFR_RNDD)] at the default precision [p]. *)
Definition mpfr_set_d_RNDD (p : Z) (d : Q) : Q := round_down p d.

(** [mpfr_div (q, a, b, MPFR_RNDD)] with [q] of precision [p].  A zero
    divisor gives NaN or an infinity, none of which is a number that
    [Gmpzf (double)] can hold: the call has no defined result. *)
Definition mpfr_div_RNDD (p : Z) (a b : Q) : option Q :=
  if Qeq_bool b 0 then None else Some (round_down p (a / b)).

(** Modelled from the spec: the Random Source's [uniformInt(lo, hi)], an
    integer of [lo..hi]; [raw] is the generator's next raw output. *)
Definition generate_random_unsigned (lo hi : Z) (raw : Z) : Z :=
  (lo + raw mod (hi - lo + 1))%Z.

Section MemberFunctions.

Context {ext : External}.

Local Open Scope metro_scope.

(** *** Calls to the collaborators *)

Definition call_S3_bulk_action (N1_TL N3_31 N3_22 : Z) : M Gmpzf :=
  fun s =>
    Some (S3_bulk_action N1_TL N3_31 N3_22 (Alpha_ s) (K_ s) (Lambda_ s),
          s, [Ev_S3_bulk_action N1_TL N3_31 N3_22]).

Definition call_make_23_move : M unit :=
  fun s =>
    let r := make_23_move (universe_ptr_ s) (simplex_types_ s) (attempted_moves_ s) in
    Some (tt, set_attempted (snd r) (set_universe (fst r) s), [Ev_make_move TWO_THREE]).

Definition call_make_32_move : M unit :=
  fun s =>
    let r := make_32_move (universe_ptr_ s) (edge_types_ s) (attempted_moves_ s) in
    Some (tt, set_attempted (snd r) (set_universe (fst r) s), [Ev_make_move THREE_TWO]).

Definition call_make_26_move : M unit :=
  fun s =>
    let r := make_26_move (universe_ptr_ s) (simplex_types_ s) (attempted_moves_ s) in
    Some (tt, set_attempted (snd r) (set_universe (fst r) s), [Ev_make_move TWO_SIX]).

(** *** [CalculateA1] *)

Definition CalculateA1 (move : move_type) : M Gmpzf :=
  total_moves <- read TotalMoves ;;
  this_move <- read (fun s =>
    match move with
    | TWO_THREE => int_of_uintmax (get0 (attempted_moves_ s))
    | THREE_TWO => int_of_uintmax (get1 (attempted_moves_ s))
    | TWO_SIX => int_of_uintmax (get2 (attempted_moves_ s))
    | SIX_TWO => int_of_uintmax (get3 (attempted_moves_ s))
    | FOUR_FOUR => int_of_uintmax (get4 (attempted_moves_ s))
    end) ;;
  let r1 := mpfr_set_ui_RNDD PRECISION this_move in
  let r2 := mpfr_set_ui_RNDD PRECISION total_moves in
  a1 <- read_opt (fun _ => mpfr_div_RNDD PRECISION r1 r2) ;;
  ret (mpfr_get_d_RNDD a1).

(** *** [CalculateA2] *)

(** The part of [CalculateA2] after the [switch]. *)
Definition CalculateA2_finish (currentS3Action newS3Action : Gmpzf) : M Gmpzf :=
  let exponent := newS3Action - currentS3Action in
  let exponent_double := Gmpzf_to_double exponent in
  if Qle_bool 0 exponent then ret 1
  else
    let r1 := mpfr_set_d_RNDD PRECISION exponent_double in
    let a2 := mpfr_exp_RNDD PRECISION r1 in
    ret (mpfr_get_d_RNDD a2).

Definition CalculateA2 (move : move_type) : M Gmpzf :=
  N1_TL <- read N1_TL_ ;;
  N3_31 <- read N3_31_ ;;
  N3_22 <- read N3_22_ ;;
  currentS3Action <- call_S3_bulk_action N1_TL N3_31 N3_22 ;;
  match move with
  | TWO_THREE =>
      newS3Action <- call_S3_bulk_action
        (UIntMax.sub N1_TL 1) N3_31 (UIntMax.add N3_22 1) ;;
      CalculateA2_finish currentS3Action newS3Action
  | THREE_TWO =>
      newS3Action <- call_S3_bulk_action
        (UIntMax.add N1_TL 1) N3_31 (UIntMax.sub N3_22 1) ;;
      CalculateA2_finish currentS3Action newS3Action
  | TWO_SIX =>
      newS3Action <- call_S3_bulk_action
        (UIntMax.add N1_TL 2) (UIntMax.add N3_31 4) N3_22 ;;
      CalculateA2_finish currentS3Action newS3Action
  | SIX_TWO =>
      newS3Action <- call_S3_bulk_action
        (UIntMax.sub N1_TL 2) N3_31 (UIntMax.sub N3_22 4) ;;
      CalculateA2_finish currentS3Action newS3Action
  | FOUR_FOUR => ret 1
  end.

(** *** [attempt_move] *)

(** The [switch] of the branch "Move accepted". *)
Definition move_accepted (move : move_type) : M unit :=
  match move with
  | TWO_THREE =>
      call_make_23_move ;;
      modify (fun s => set_N3_22 (UIntMax.incr (N3_22_ s)) s) ;;
      modify (fun s => set_N1_TL (UIntMax.incr (N1_TL_ s)) s) ;;
      modify (fun s => set_successful (incr_get TWO_THREE (successful_moves_ s)) s)
  | THREE_TWO =>
      call_make_32_move ;;
      modify (fun s => set_N3_22 (UIntMax.decr (N3_22_ s)) s) ;;
      modify (fun s => set_N1_TL (UIntMax.decr (N1_TL_ s)) s) ;;
      modify (fun s => set_successful (incr_get THREE_TWO (successful_moves_ s)) s)
  | TWO_SIX =>
      call_make_26_move ;;
      modify (fun s => set_N3_31 (UIntMax.add (N3_31_ s) 4) s) ;;
      modify (fun s => set_N1_TL (UIntMax.add (N1_TL_ s) 2) s) ;;
      modify (fun s => set_successful (incr_get TWO_SIX (successful_moves_ s)) s)
  | SIX_TWO => ret tt
  | FOUR_FOUR => ret tt
  end.

(** The [switch] of the branch "Move rejected". *)
Definition move_rejected (move : move_type) : M unit :=
  match move with
  | TWO_THREE =>
      modify (fun s => set_attempted (incr_get TWO_THREE (attempted_moves_ s)) s)
  | THREE_TWO =>
      modify (fun s => set_attempted (incr_get THREE_TWO (attempted_moves_ s)) s)
  | TWO_SIX =>
      modify (fun s => set_attempted (incr_get TWO_SIX (attempted_moves_ s)) s)
  | SIX_TWO =>
      modify (fun s => set_attempted (incr_get SIX_TWO (attempted_moves_ s)) s)
  | FOUR_FOUR =>
      modify (fun s => set_attempted (incr_get FOUR_FOUR (attempted_moves_ s)) s)
  end.

(** [trial_double] is the double [static_cast<double>(trialval)] of this
    call, [trialval] being what [generate_probability()] returns (a
    collaborator outside this file, whose return type is not known
    here).  The draw enters the function as this double only, and
    [Gmpzf (double)] is exact: [trial] is the number the double holds. *)
Definition attempt_move (move : move_type) (trial_double : Q) : M unit :=
  emit (Ev_attempt_move move) ;;
  a1 <- CalculateA1 move ;;
  a2 <- CalculateA2 move ;;
  let trial : Gmpzf := trial_double in
  if Qle_bool trial (a1 * a2) then move_accepted move else move_rejected move.

(** *** [operator()] *)

(** [for (auto i = start; i < start + count; ++i) body (i)]. *)
Fixpoint for_loop (start count : nat) (body : nat -> M unit) : M unit :=
  match count with
  | O => ret tt
  | S count' => body start ;; for_loop (S start) count' body
  end.

(** Populate the member data from the triangulation handed in. *)
Definition populate (universe_ptr : Universe) : M unit :=
  modify (set_universe universe_ptr) ;;
  modify (fun s => set_simplex_types (classify_simplices (universe_ptr_ s)) s) ;;
  modify (fun s => set_edge_types (classify_edges (universe_ptr_ s)) s) ;;
  modify (fun s =>
    set_N3_31 (UIntMax.wrap (Z.of_nat (length (fst (fst (simplex_types_ s)))) +
                             Z.of_nat (length (snd (simplex_types_ s))))) s) ;;
  modify (fun s => set_N3_22 (UIntMax.of_size (snd (fst (simplex_types_ s)))) s) ;;
  modify (fun s => set_N1_TL (UIntMax.of_size (fst (edge_types_ s))) s).

(** Attempt each type of move to populate [attempted_moves_]. *)
Definition seed_moves : M unit :=
  call_make_23_move ;;
  modify (fun s => set_N3_22 (UIntMax.incr (N3_22_ s)) s) ;;
  modify (fun s => set_N1_TL (UIntMax.incr (N1_TL_ s)) s) ;;
  modify (fun s => set_successful (incr_get TWO_THREE (successful_moves_ s)) s) ;;
  call_make_32_move ;;
  modify (fun s => set_N3_22 (UIntMax.decr (N3_22_ s)) s) ;;
  modify (fun s => set_N1_TL (UIntMax.decr (N1_TL_ s)) s) ;;
  modify (fun s => set_successful (incr_get THREE_TWO (successful_moves_ s)) s) ;;
  call_make_26_move ;;
  modify (fun s => set_N3_31 (UIntMax.add (N3_31_ s) 4) s) ;;
  modify (fun s => set_N1_TL (UIntMax.add (N1_TL_ s) 2) s) ;;
  modify (fun s => set_successful (incr_get TWO_SIX (successful_moves_ s)) s).

(** One iteration of the move loop; [choice_raw i] is the random source's
    raw output for the move choice of iteration [i], and [trial_double i]
    the draw of that iteration's [attempt_move], converted to double. *)
Definition loop_body (choice_raw : nat -> Z) (trial_double : nat -> Q)
    (move_attempt : nat) : M unit :=
  let move_choice := generate_random_unsigned 0 2 (choice_raw move_attempt) in
  match move_of_choice move_choice with
  | Some move => attempt_move move (trial_double move_attempt)
  | None => undefined
  end.

Definition total_simplices_this_pass : nat := 10.

(** [operator()] up to and including the first [n] iterations of its
    loop. *)
Definition operator_call_upto (n : nat) (universe_ptr : Universe)
    (choice_raw : nat -> Z) (trial_double : nat -> Q) : M unit :=
  populate universe_ptr ;;
  seed_moves ;;
  for_loop 0 n (loop_body choice_raw trial_double).

Definition operator_call (universe_ptr : Universe)
    (choice_raw : nat -> Z) (trial_double : nat -> Q) : M Universe :=
  operator_call_upto total_simplices_this_pass universe_ptr choice_raw trial_double ;;
  read universe_ptr_.

End MemberFunctions.

(** ** Observing a call *)

Local Open Scope Z_scope.

Section Observers.

Context {ext : External}.

Definition value_of {A} (c : M A) (s : Metropolis) : option A :=
  match c s with Some (a, _, _) => Some a | None => None end.

Definition state_after {A} (c : M A) (s : Metropolis) : option Metropolis :=
  match c s with Some (_, s', _) => Some s' | None => None end.

Definition trace_of {A} (c : M A) (s : Metropolis) : list event :=
  match c s with Some (_, _, t) => t | None => [] end.

(** The arguments of the Action Evaluator calls of a trace, in order. *)
Definition action_points (t : list event) : list (Z * Z * Z) :=
  flat_map (fun e =>
    match e with
    | Ev_S3_bulk_action a b c => [(a, b, c)]
    | _ => []
    end) t.

Definition count_attempts (t : list event) : nat :=
  length (filter is_attempt t).

(** The kinds that [operator()] seeds. *)
Definition seeded (m : move_type) : bool :=
  match m with
  | TWO_THREE | THREE_TWO | TWO_SIX => true
  | SIX_TWO | FOUR_FOUR => false
  end.

(** An event that proposes or executes no (6,2) and no (4,4) move. *)
Definition event_of_seeded_kind (e : event) : bool :=
  match e with
  | Ev_attempt_move m => seeded m
  | Ev_make_move m => seeded m
  | Ev_S3_bulk_action _ _ _ => true
  end.

(** The test [trial <= a1*a2] of [attempt_move], on the two ratios it
    computes in state [s] and on the draw as the function compares it,
    converted to double. *)
Definition decision (move : move_type) (trial_double : Q) (s : Metropolis) : option bool :=
  match value_of (CalculateA1 move) s, value_of (CalculateA2 move) s with
  | Some a1, Some a2 => Some (Qle_bool trial_double (a1 * a2)%Q)
  | _, _ => None
  end.

Definition accepted (move : move_type) (trial_double : Q) (s : Metropolis) : Prop :=
  decision move trial_double s = Some true.

Definition rejected (move : move_type) (trial_double : Q) (s : Metropolis) : Prop :=
  decision move trial_double s = Some false.

(** The number of attempted moves of all five kinds, as a number (not
    reduced modulo [2^64]). *)
Definition sum_attempted (s : Metropolis) : Z :=
  get0 (attempted_moves_ s) + get1 (attempted_moves_ s) +
  get2 (attempted_moves_ s) + get3 (attempted_moves_ s) +
  get4 (attempted_moves_ s).

(** The Configuration Counts. *)
Definition counts (s : Metropolis) : Z * Z * Z := (N1_TL_ s, N3_31_ s, N3_22_ s).

(** Each successful counter is covered by its attempted counter. *)
Definition attempted_covers_successful (s : Metropolis) : Prop :=
  forall k, get k (successful_moves_ s) <= get k (attempted_moves_ s).

(** Every counter pair is ordered, and no attempted counter exceeds
    [n]. *)
Definition counters_within (n : Z) (s : Metropolis) : Prop :=
  forall k,
    0 <= get k (successful_moves_ s) <= get k (attempted_moves_ s) /\
    get k (attempted_moves_ s) <= n.

(** What a stretch of a run keeps and establishes: ordered counters
    bounded by [n], the counters of the kinds that are not seeded as they
    were, [passes_] as it was, [attempts] calls of [attempt_move], and
    no (6,2) or (4,4) move proposed or executed. *)
Definition stretch_post (n : Z) (attempts : nat) (s s' : Metropolis)
    (t : list event) : Prop :=
  counters_within n s' /\
  1 <= get TWO_THREE (attempted_moves_ s') /\
  (forall k, seeded k = false ->
     get k (attempted_moves_ s') = get k (attempted_moves_ s) /\
     get k (successful_moves_ s') = get k (successful_moves_ s)) /\
  passes_ s' = passes_ s /\
  count_attempts t = attempts /\
  forallb event_of_seeded_kind t = true.

(** The Move Executor's contract on the shared counter: one invocation
    increments the attempted counter of its own kind once and leaves the
    others alone. *)
Definition executor_counts_once : Prop :=
  (forall u st a, snd (make_23_move u st a) = incr_get TWO_THREE a) /\
  (forall u et a, snd (make_32_move u et a) = incr_get THREE_TWO a) /\
  (forall u st a, snd (make_26_move u st a) = incr_get TWO_SIX a).

End Observers.

(** ** The specification's Table 1 *)

(** Spec, Table 1: the change of (N1_TL, N3_31, N3_22) per move kind. *)
Definition Table1 (m : move_type) : Z * Z * Z :=
  match m with
  | TWO_THREE => (1, 0, 1)
  | THREE_TWO => (-1, 0, -1)
  | TWO_SIX => (2, 4, 0)
  | SIX_TWO => (-2, -4, 0)
  | FOUR_FOUR => (0, 0, 0)
  end.

(** Counts [c] moved by the row of [m], in [uintmax_t] arithmetic. *)
Definition Table1_apply (m : move_type) (c : Z * Z * Z) : Z * Z * Z :=
  let '(n1, n31, n22) := c in
  let '(d1, d31, d22) := Table1 m in
  (UIntMax.add n1 d1, UIntMax.add n31 d31, UIntMax.add n22 d22).

(** ** A concrete set of collaborators

    Used to run the class on explicit inputs. *)

(** Modelled from the spec: the Move Executor of S3ErgodicMoves.h, which
    "must itself increment a shared attempted counter exactly once per
    invocation"; the triangulation is reduced to the number of moves made
    on it. *)
Definition spec_executor (m : move_type) (u : nat) (a : move_tuple) : nat * move_tuple :=
  (S u, incr_get m a).

(** A stand-in action, linear in the counts.  The exponential of the
    instance below is a rational stand-in as well, [1 / (1 - x)], which
    lies in (0, 1) at the negative arguments it is called on. *)
Definition linear_action (N1_TL N3_31 N3_22 : Z) (Alpha K Lambda : Q) : Gmpzf :=
  (Lambda * inject_Z (N3_31 + N3_22) - K * Alpha * inject_Z N1_TL)%Q.

#[export] Instance demo_ext : External := {|
  Universe := nat;
  Long_double := Q;
  Cell_handle := nat;
  Edge_tuple := nat;
  PRECISION := 256;
  S3_bulk_action := linear_action;
  Gmpzf_to_double := mpfr_get_d_RNDD;
  mpfr_exp_RNDD := fun p x => round_down p (1 / (1 - x))%Q;
  classify_simplices := fun u => ([1; 2; 3]%nat, [4; 5]%nat, [6; 7; 8]%nat);
  classify_edges := fun u => ([1; 2; 3; 4]%nat, 9);
  make_23_move := fun u _ a => spec_executor TWO_THREE u a;
  make_32_move := fun u _ a => spec_executor THREE_TWO u a;
  make_26_move := fun u _ a => spec_executor TWO_SIX u a
|}.

(** A freshly constructed object over the concrete collaborators. *)
Definition demo_fresh (passes : Z) : @Metropolis demo_ext :=
  Metropolis_ctor (ext := demo_ext) 0%nat 1%Q 1%Q 1%Q passes 1 ([], [], []) ([], 0).

(** An object in the middle of a run. *)
Definition demo_state (attempted successful : move_tuple) : @Metropolis demo_ext :=
  {| universe_ptr_ := 0%nat : @Universe demo_ext;
     Alpha_ := 1%Q : @Long_double demo_ext;
     K_ := 1%Q : @Long_double demo_ext;
     Lambda_ := 1%Q : @Long_double demo_ext;
     N1_TL_ := 10; N3_31_ := 20; N3_22_ := 30;
     passes_ := 1; output_every_n_passes_ := 1;
     attempted_moves_ := attempted;
     successful_moves_ := successful;
     simplex_types_ := ([], [], []);
     edge_types_ := ([], 0) |}.

(** The number of successful moves of all five kinds, as a number. *)
Definition sum_successful {ext : External} (s : Metropolis) : Z :=
  get0 (successful_moves_ s) + get1 (successful_moves_ s) +
  get2 (successful_moves_ s) + get3 (successful_moves_ s) +
  get4 (successful_moves_ s).

Definition count_executor_calls (t : list event) : nat :=
  length (filter is_executor_call t).

(** ** Delaunay.h: [Delaunay::CountVertices]

    The triangulation is seen through the range
    [vertices_begin() .. vertices_end()], a list of vertices.
    [PointCounter] is an [int]: incrementing it at [INT_MAX] is outside
    the defined behaviour of the language ([None]).  The output is the
    list of the numbers [k] of the lines "Point #k" sent to [std::cout]. *)

Definition INT_MAX : Z := 2 ^ 31 - 1.

(** The [for] loop over the vertex range, from a given [PointCounter]. *)
Fixpoint CountVertices_loop {Vertex : Type} (vertices : list Vertex)
    (PointCounter : Z) : option (Z * list Z) :=
  match vertices with
  | [] => Some (PointCounter, [])
  | _ :: rest =>
      if PointCounter <? INT_MAX then
        let PointCounter' := PointCounter + 1 in
        match CountVertices_loop rest PointCounter' with
        | Some (r, out) => Some (r, PointCounter' :: out)
        | None => None
        end
      else None
  end.

Definition CountVertices {Vertex : Type} (vertices : list Vertex) : option (Z * list Z) :=
  CountVertices_loop vertices 0.

(** * Properties *)

Local Open Scope Q_scope.

(** ** Powers of two *)

Lemma two_pow_pos (e : Z) : 0 < 2 ^ e.
Proof. apply Qpower_0_lt. reflexivity. Qed.

Lemma two_pow_nonzero (e : Z) : ~ 2 ^ e == 0.
Proof. intros H. pose proof (two_pow_pos e) as Hp. rewrite H in Hp. discriminate Hp. Qed.

Lemma two_pow_inject (n : Z) : (0 <= n)%Z -> 2 ^ n == inject_Z (2 ^ n).
Proof. intros Hn. rewrite Zpower_Qpower by assumption. reflexivity. Qed.

Lemma two_pow_succ (e : Z) : 2 ^ (e + 1) == 2 * 2 ^ e.
Proof. rewrite Qpower_plus by discriminate. rewrite Qmult_comm. reflexivity. Qed.

Lemma two_pow_le (a b : Z) : (a <= b)%Z -> 2 ^ a <= 2 ^ b.
Proof. intros H. apply Qpower_le_compat_l; [assumption | discriminate]. Qed.

Lemma two_pow_lt_inv (a b : Z) : 2 ^ a < 2 ^ b -> (a < b)%Z.
Proof. intros H. apply (Qpower_lt_compat_l_inv 2); [assumption | reflexivity]. Qed.

Lemma two_pow_split (a b : Z) : 2 ^ a == 2 ^ (a - b) * 2 ^ b.
Proof.
  rewrite <- Qpower_plus by discriminate.
  replace (a - b + b)%Z with a by lia. reflexivity.
Qed.

(** ** The binary exponent *)

Lemma Qilog2_spec (x : Q) :
  0 < x -> 2 ^ Qilog2 x <= x /\ x < 2 ^ (Qilog2 x + 1).
Proof.
  intros Hx. destruct x as [n d]. unfold Qilog2. cbn [Qnum Qden].
  assert (Hn : (0 < n)%Z).
  { unfold Qlt in Hx. cbn in Hx. lia. }
  set (ln := Z.log2 n). set (ld := Z.log2 (Z.pos d)).
  destruct (Z.log2_spec n Hn) as [Hn1 Hn2].
  destruct (Z.log2_spec (Z.pos d) (Pos2Z.is_pos d)) as [Hd1 Hd2].
  fold ln in Hn1, Hn2. fold ld in Hd1, Hd2.
  assert (Hln : (0 <= ln)%Z) by apply Z.log2_nonneg.
  assert (Hld : (0 <= ld)%Z) by apply Z.log2_nonneg.
  assert (Hq : n # d == inject_Z n / inject_Z (Z.pos d)) by apply Qmake_Qdiv.
  assert (Hdpos : 0 < inject_Z (Z.pos d)).
  { rewrite <- (Zlt_Qlt 0). apply Pos2Z.is_pos. }
  assert (HA : 0 < inject_Z (2 ^ ln)).
  { rewrite <- (Zlt_Qlt 0). apply Z.pow_pos_nonneg; lia. }
  assert (HB : 0 < inject_Z (2 ^ ld)).
  { rewrite <- (Zlt_Qlt 0). apply Z.pow_pos_nonneg; lia. }
  assert (Hn1q : inject_Z (2 ^ ln) <= inject_Z n) by (rewrite <- Zle_Qle; assumption).
  assert (Hn2q : inject_Z n < 2 * inject_Z (2 ^ ln)).
  { rewrite Z.pow_succ_r in Hn2 by assumption.
    rewrite <- (inject_Z_mult 2). rewrite <- Zlt_Qlt. assumption. }
  assert (Hd1q : inject_Z (2 ^ ld) <= inject_Z (Z.pos d)) by (rewrite <- Zle_Qle; assumption).
  assert (Hd2q : inject_Z (Z.pos d) < 2 * inject_Z (2 ^ ld)).
  { rewrite Z.pow_succ_r in Hd2 by assumption.
    rewrite <- (inject_Z_mult 2). rewrite <- Zlt_Qlt. assumption. }
  assert (Hk : 2 ^ (ln - ld) == inject_Z (2 ^ ln) / inject_Z (2 ^ ld)).
  { rewrite Qpower_minus by discriminate.
    rewrite (two_pow_inject ln), (two_pow_inject ld) by assumption. reflexivity. }
  assert (Hupper : n # d < 2 ^ (ln - ld + 1)).
  { rewrite Hq, two_pow_succ, Hk. apply Qlt_shift_div_r; [assumption|].
    setoid_replace (2 * (inject_Z (2 ^ ln) / inject_Z (2 ^ ld)) * inject_Z (Z.pos d))
      with (2 * inject_Z (2 ^ ln) * (inject_Z (Z.pos d) / inject_Z (2 ^ ld)))
      by (field; lra).
    assert (1 <= inject_Z (Z.pos d) / inject_Z (2 ^ ld))
      by (apply Qle_shift_div_l; lra).
    nra. }
  assert (Hlower : 2 ^ (ln - ld - 1) <= n # d).
  { apply Qmult_le_l with (z := 2); [reflexivity|].
    rewrite <- two_pow_succ. replace (ln - ld - 1 + 1)%Z with (ln - ld)%Z by lia.
    rewrite Hq, Hk.
    setoid_replace (2 * (inject_Z n / inject_Z (Z.pos d)))
      with ((2 * inject_Z n) / inject_Z (Z.pos d)) by (field; lra).
    apply Qle_shift_div_l; [assumption|].
    setoid_replace (inject_Z (2 ^ ln) / inject_Z (2 ^ ld) * inject_Z (Z.pos d))
      with (inject_Z (2 ^ ln) * (inject_Z (Z.pos d) / inject_Z (2 ^ ld)))
      by (field; lra).
    assert (inject_Z (Z.pos d) / inject_Z (2 ^ ld) < 2)
      by (apply Qlt_shift_div_r; lra).
    nra. }
  destruct (Qle_bool (2 ^ (ln - ld)) (n # d)) eqn:Hb.
  - apply Qle_bool_iff in Hb. split; assumption.
  - split; [assumption|].
    replace (ln - ld - 1 + 1)%Z with (ln - ld)%Z by lia.
    apply Qnot_le_lt. intros Hle. apply Qle_bool_iff in Hle. congruence.
Qed.

Lemma two_pow_lt_succ_inv (a b : Z) : 2 ^ a < 2 ^ (b + 1) -> (a <= b)%Z.
Proof. intros H. apply two_pow_lt_inv in H. lia. Qed.

(** The exponent is determined by the value, not by the fraction that
    represents it. *)
Lemma Qilog2_unique (x : Q) (e : Z) :
  2 ^ e <= x -> x < 2 ^ (e + 1) -> Qilog2 x = e.
Proof.
  intros Hlo Hhi.
  assert (Hx : 0 < x) by (apply Qlt_le_trans with (2 ^ e); [apply two_pow_pos | assumption]).
  destruct (Qilog2_spec x Hx) as [Hlo' Hhi'].
  assert (H1 : (e <= Qilog2 x)%Z).
  { apply two_pow_lt_succ_inv. apply Qle_lt_trans with x; assumption. }
  assert (H2 : (Qilog2 x <= e)%Z).
  { apply two_pow_lt_succ_inv. apply Qle_lt_trans with x; assumption. }
  lia.
Qed.

Lemma Qilog2_Qabs_pos (x : Q) : 0 < x -> Qilog2 (Qabs x) = Qilog2 x.
Proof.
  intros Hx. destruct (Qilog2_spec x Hx) as [Hlo Hhi].
  apply Qilog2_unique; rewrite Qabs_pos by (apply Qlt_le_weak; assumption);
    assumption.
Qed.

(** ** Floors *)

Lemma Qfloor_unique (x : Q) (z : Z) :
  inject_Z z <= x -> x < inject_Z (z + 1) -> Qfloor x = z.
Proof.
  intros Hlo Hhi.
  assert (H1 : (z <= Qfloor x)%Z).
  { rewrite <- (Qfloor_Z z). apply Qfloor_resp_le. assumption. }
  assert (H2 : (Qfloor x < z + 1)%Z).
  { rewrite Zlt_Qlt. apply Qle_lt_trans with x; [apply Qfloor_le | assumption]. }
  lia.
Qed.

(** Flooring, then dividing by a positive integer and flooring again, is
    flooring the quotient. *)
Lemma Qfloor_div_nested (x : Q) (c : Z) :
  (0 < c)%Z -> Qfloor (x / inject_Z c) = (Qfloor x / c)%Z.
Proof.
  intros Hc.
  assert (Hcq : 0 < inject_Z c) by (rewrite <- (Zlt_Qlt 0); assumption).
  pose proof (Qfloor_le x) as Hlo. pose proof (Qlt_floor x) as Hhi.
  set (a := Qfloor x) in *.
  pose proof (Z.mul_div_le a c Hc) as Hq1.
  pose proof (Z.mul_succ_div_gt a c Hc) as Hq2.
  set (q := (a / c)%Z) in *.
  apply Qfloor_unique.
  - apply Qle_shift_div_l; [assumption|].
    apply Qle_trans with (inject_Z a); [|assumption].
    rewrite <- inject_Z_mult, <- Zle_Qle. lia.
  - apply Qlt_shift_div_r; [assumption|].
    apply Qlt_le_trans with (inject_Z (a + 1)); [assumption|].
    rewrite <- inject_Z_mult, <- Zle_Qle. lia.
Qed.

Lemma Qle_div_mult (a b c : Q) : 0 < c -> a <= b / c -> a * c <= b.
Proof.
  intros Hc H.
  setoid_replace b with (b / c * c) by (field; lra).
  apply Qmult_le_r; assumption.
Qed.

Lemma Qlt_div_mult (a b c : Q) : 0 < c -> b / c < a -> b < a * c.
Proof.
  intros Hc H.
  setoid_replace b with (b / c * c) by (field; lra).
  apply Qmult_lt_r; assumption.
Qed.

(** ** Rounding down *)

Section RoundDown.

Variable p : Z.
Variable x : Q.
Hypothesis Hp : (1 <= p)%Z.
Hypothesis Hx : 0 < x.

Let E : Z := Qilog2 x.
Let e : Z := (E - p + 1)%Z.

Lemma round_down_pos_eq :
  round_down p x = inject_Z (Qfloor (x / 2 ^ e)) * 2 ^ e.
Proof.
  unfold round_down.
  destruct (Qeq_bool x 0) eqn:Hz.
  - apply Qeq_bool_iff in Hz. rewrite Hz in Hx. discriminate Hx.
  - rewrite Qilog2_Qabs_pos by assumption. reflexivity.
Qed.

Lemma round_down_le : round_down p x <= x.
Proof.
  rewrite round_down_pos_eq.
  apply Qle_div_mult; [apply two_pow_pos | apply Qfloor_le].
Qed.

Lemma round_down_gap : x < round_down p x + 2 ^ e.
Proof.
  rewrite round_down_pos_eq.
  pose proof (Qlt_floor (x / 2 ^ e)) as Hf.
  rewrite inject_Z_plus in Hf.
  apply Qlt_div_mult in Hf; [|apply two_pow_pos].
  setoid_replace (inject_Z (Qfloor (x / 2 ^ e)) * 2 ^ e + 2 ^ e)
    with ((inject_Z (Qfloor (x / 2 ^ e)) + inject_Z 1) * 2 ^ e) by ring.
  exact Hf.
Qed.

Lemma round_down_ge_pow : 2 ^ E <= round_down p x.
Proof.
  rewrite round_down_pos_eq.
  destruct (Qilog2_spec x Hx) as [Hlo _]. fold E in Hlo.
  pose proof (two_pow_pos e) as He.
  rewrite (two_pow_split E e).
  apply Qmult_le_r; [assumption|].
  replace (E - e)%Z with (p - 1)%Z by (unfold e; lia).
  rewrite (two_pow_inject (p - 1)) by lia.
  rewrite <- Zle_Qle. rewrite <- (Qfloor_Z (2 ^ (p - 1))).
  apply Qfloor_resp_le.
  rewrite <- (two_pow_inject (p - 1)) by lia.
  apply Qle_shift_div_l; [assumption|].
  rewrite <- Qpower_plus by discriminate.
  replace (p - 1 + e)%Z with E by (unfold e; lia). assumption.
Qed.

Lemma round_down_pos : 0 < round_down p x.
Proof.
  apply Qlt_le_trans with (2 ^ E); [apply two_pow_pos | apply round_down_ge_pow].
Qed.

Lemma round_down_Qilog2 : Qilog2 (round_down p x) = E.
Proof.
  apply Qilog2_unique; [apply round_down_ge_pow|].
  apply Qle_lt_trans with x; [apply round_down_le|].
  destruct (Qilog2_spec x Hx) as [_ Hhi]. exact Hhi.
Qed.

(** The relative error: the gap is at most [2^(1-p)] times the result. *)
Lemma round_down_rel : x - round_down p x <= round_down p x * 2 ^ (1 - p).
Proof.
  pose proof round_down_gap as Hg. pose proof round_down_ge_pow as Hge.
  assert (Hpow : 2 ^ e == 2 ^ E * 2 ^ (1 - p)).
  { rewrite <- Qpower_plus by discriminate.
    replace (E + (1 - p))%Z with e by (unfold e; lia). reflexivity. }
  pose proof (two_pow_pos (1 - p)) as H1p.
  rewrite Hpow in Hg. nra.
Qed.

End RoundDown.

Lemma Qilog2_comp (x y : Q) : 0 < x -> x == y -> Qilog2 x = Qilog2 y.
Proof.
  intros Hx Hxy. destruct (Qilog2_spec x Hx) as [Hlo Hhi].
  symmetry. apply Qilog2_unique; rewrite <- Hxy; assumption.
Qed.

Lemma Qabs_pos_nonzero (x : Q) : ~ x == 0 -> 0 < Qabs x.
Proof.
  intros Hx. destruct (Qlt_le_dec 0 (Qabs x)) as [H | H]; [assumption|].
  exfalso. apply Hx.
  pose proof (Qabs_nonneg x) as Hn.
  assert (Hz : Qabs x == 0) by (apply Qle_antisym; assumption).
  revert Hz. apply Qabs_case; intros; lra.
Qed.

#[export] Instance round_down_comp (p : Z) : Proper (Qeq ==> Qeq) (round_down p).
Proof.
  intros x y Hxy. unfold round_down.
  destruct (Qeq_bool x 0) eqn:Hx0, (Qeq_bool y 0) eqn:Hy0.
  - reflexivity.
  - apply Qeq_bool_iff in Hx0. apply Qeq_bool_neq in Hy0.
    elim Hy0. rewrite <- Hxy. assumption.
  - apply Qeq_bool_iff in Hy0. apply Qeq_bool_neq in Hx0.
    elim Hx0. rewrite Hxy. assumption.
  - apply Qeq_bool_neq in Hx0.
    rewrite (Qilog2_comp (Qabs x) (Qabs y)).
    + rewrite Hxy. reflexivity.
    + apply Qabs_pos_nonzero. assumption.
    + rewrite Hxy. reflexivity.
Qed.

Lemma round_down_zero (p : Z) (x : Q) : x == 0 -> round_down p x == 0.
Proof. intros Hx. rewrite Hx. reflexivity. Qed.

(** A number that already has at most [p] significant bits is kept. *)
Lemma round_down_exact (p m f : Z) :
  (1 <= p)%Z -> (0 < m < 2 ^ p)%Z ->
  round_down p (inject_Z m * 2 ^ f) == inject_Z m * 2 ^ f.
Proof.
  intros Hp [Hm0 Hmp].
  set (x := inject_Z m * 2 ^ f).
  assert (Hmq : 0 < inject_Z m) by (rewrite <- (Zlt_Qlt 0); assumption).
  assert (Hx : 0 < x).
  { unfold x. pose proof (two_pow_pos f). nra. }
  rewrite (round_down_pos_eq p x Hx).
  set (e := (Qilog2 x - p + 1)%Z).
  assert (He : (e <= f)%Z).
  { destruct (Qilog2_spec x Hx) as [Hlo _].
    assert (Hlt : 2 ^ Qilog2 x < 2 ^ (p + f)).
    { apply Qle_lt_trans with x; [assumption|]. unfold x.
      rewrite Qpower_plus by discriminate.
      apply Qmult_lt_r; [apply two_pow_pos|].
      rewrite two_pow_inject by lia. rewrite <- Zlt_Qlt. assumption. }
    apply two_pow_lt_inv in Hlt. unfold e. lia. }
  assert (Hq : x / 2 ^ e == inject_Z (m * 2 ^ (f - e))).
  { unfold x. rewrite inject_Z_mult, <- (two_pow_inject (f - e)) by lia.
    rewrite (two_pow_split f e). field. apply two_pow_nonzero. }
  rewrite Hq, Qfloor_Z. unfold x.
  rewrite inject_Z_mult, <- (two_pow_inject (f - e)) by lia.
  rewrite (two_pow_split f e). ring.
Qed.

Lemma round_down_Z (p n : Z) :
  (1 <= p)%Z -> (0 <= n < 2 ^ p)%Z -> round_down p (inject_Z n) == inject_Z n.
Proof.
  intros Hp [Hn0 Hnp].
  destruct (Z.eq_dec n 0) as [-> | Hnz]; [reflexivity|].
  rewrite <- (Qmult_1_r (inject_Z n)) at 1 2.
  change 1 with (2 ^ 0). apply round_down_exact; [assumption | lia].
Qed.

(** Rounding down to [P] bits and then to [p <= P] bits is rounding down
    to [p] bits. *)
Lemma round_down_twice (p P : Z) (x : Q) :
  (1 <= p <= P)%Z -> 0 < x ->
  round_down p (round_down P x) == round_down p x.
Proof.
  intros [Hp HpP] Hx.
  assert (HP : (1 <= P)%Z) by lia.
  pose proof (round_down_pos P x HP Hx) as Hy.
  rewrite (round_down_pos_eq p _ Hy), (round_down_Qilog2 P x HP Hx).
  rewrite (round_down_pos_eq p x Hx).
  set (E := Qilog2 x). set (ep := (E - p + 1)%Z).
  apply Qmult_comp; [|reflexivity].
  apply inject_Z_injective.
  rewrite (round_down_pos_eq P x Hx). fold E. set (eP := (E - P + 1)%Z).
  set (c := (2 ^ (P - p))%Z).
  assert (Hc : (0 < c)%Z) by (apply Z.pow_pos_nonneg; lia).
  assert (Hcq : 2 ^ ep == inject_Z c * 2 ^ eP).
  { unfold c. rewrite <- two_pow_inject by lia.
    rewrite <- Qpower_plus by discriminate.
    replace (P - p + eP)%Z with ep by (unfold ep, eP; lia). reflexivity. }
  assert (Hcnz : ~ inject_Z c == 0).
  { intros H. apply (inject_Z_injective c 0) in H. lia. }
  setoid_replace (inject_Z (Qfloor (x / 2 ^ eP)) * 2 ^ eP / 2 ^ ep)
    with (inject_Z (Qfloor (x / 2 ^ eP)) / inject_Z c)
    by (rewrite Hcq; field; split; (assumption || apply two_pow_nonzero)).
  setoid_replace (x / 2 ^ ep) with (x / 2 ^ eP / inject_Z c)
    by (rewrite Hcq; field; split; (assumption || apply two_pow_nonzero)).
  rewrite <- Zdiv_Qdiv, Qfloor_div_nested by assumption. reflexivity.
Qed.

Local Open Scope Z_scope.

(** ** The machine integers *)

Lemma wrap_range (z : Z) : UIntMax.in_range (UIntMax.wrap z).
Proof.
  unfold UIntMax.in_range, UIntMax.wrap, UIntMax.modulus, UIntMax.width.
  apply Z.mod_pos_bound. reflexivity.
Qed.

Lemma wrap_small (z : Z) : UIntMax.in_range z -> UIntMax.wrap z = z.
Proof.
  unfold UIntMax.in_range, UIntMax.wrap. intros H. now apply Z.mod_small.
Qed.

(** Two offsets that differ by less than [2^64] never wrap to the same
    value. *)
Lemma wrap_offsets_differ (z a b : Z) :
  a <> b -> - UIntMax.modulus < a - b < UIntMax.modulus ->
  UIntMax.wrap (z + a) <> UIntMax.wrap (z + b).
Proof.
  unfold UIntMax.wrap, UIntMax.modulus, UIntMax.width.
  intros Hab Hr Heq.
  assert (Hd : ((z + a) - (z + b)) mod 2 ^ 64 = 0).
  { rewrite Zminus_mod, Heq, Z.sub_diag. reflexivity. }
  replace (z + a - (z + b)) with (a - b) in Hd by lia.
  apply Z.mod_divide in Hd; [|lia].
  destruct Hd as [q Hq]. lia.
Qed.

(** ** The read accessors *)

Section AccessorFacts.

Context {ext : External}.

Lemma SuccessfulSixTwoMoves_reads_attempted (s : Metropolis) :
  SuccessfulSixTwoMoves s = get SIX_TWO (attempted_moves_ s).
Proof. reflexivity. Qed.

Lemma SuccessfulFourFourMoves_reads_attempted (s : Metropolis) :
  SuccessfulFourFourMoves s = get FOUR_FOUR (attempted_moves_ s).
Proof. reflexivity. Qed.

(** The three accessors whose body reads [successful_moves_]. *)
Lemma Successful_accessors_seeded_kinds (s : Metropolis) :
  SuccessfulTwoThreeMoves s = get TWO_THREE (successful_moves_ s) /\
  SuccessfulThreeTwoMoves s = get THREE_TWO (successful_moves_ s) /\
  SuccessfulTwoSixMoves s = get TWO_SIX (successful_moves_ s).
Proof. repeat split. Qed.

End AccessorFacts.

(** C5 (evaluation at the failing input).  After one attempted and no
    successful (6,2) and (4,4) move, [SuccessfulSixTwoMoves] and
    [SuccessfulFourFourMoves] both answer 1, the attempted counters,
    while the successful counters they are documented to return are 0. *)
Theorem Successful_accessors_return_attempted :
  let s := demo_state (mk_move_tuple 1 1 1 1 1) (mk_move_tuple 1 1 1 0 0) in
  SuccessfulSixTwoMoves s = 1 /\ get SIX_TWO (successful_moves_ s) = 0 /\
  SuccessfulFourFourMoves s = 1 /\ get FOUR_FOUR (successful_moves_ s) = 0.
Proof. repeat split. Qed.

(** ** [CalculateA2] *)

Section A2Facts.

Context {ext : External}.

Lemma CalculateA2_finish_run (cur new : Gmpzf) (s : Metropolis) :
  exists v, CalculateA2_finish cur new s = Some (v, s, []).
Proof.
  unfold CalculateA2_finish.
  destruct (Qle_bool 0 (new - cur)); eexists; reflexivity.
Qed.

(** [CalculateA2] is [const] and total; its trace is the current-action
    call followed by the hypothetical-action call of the [switch]. *)
Lemma CalculateA2_run (move : move_type) (s : Metropolis) :
  exists v,
    CalculateA2 move s =
    Some (v, s,
          Ev_S3_bulk_action (N1_TL_ s) (N3_31_ s) (N3_22_ s) ::
          match move with
          | TWO_THREE =>
              [Ev_S3_bulk_action (UIntMax.sub (N1_TL_ s) 1) (N3_31_ s)
                 (UIntMax.add (N3_22_ s) 1)]
          | THREE_TWO =>
              [Ev_S3_bulk_action (UIntMax.add (N1_TL_ s) 1) (N3_31_ s)
                 (UIntMax.sub (N3_22_ s) 1)]
          | TWO_SIX =>
              [Ev_S3_bulk_action (UIntMax.add (N1_TL_ s) 2)
                 (UIntMax.add (N3_31_ s) 4) (N3_22_ s)]
          | SIX_TWO =>
              [Ev_S3_bulk_action (UIntMax.sub (N1_TL_ s) 2) (N3_31_ s)
                 (UIntMax.sub (N3_22_ s) 4)]
          | FOUR_FOUR => []
          end).
Proof.
  destruct move; cbn [CalculateA2 bind read call_S3_bulk_action];
    try (eexists; reflexivity);
    match goal with
    | |- context [CalculateA2_finish ?c ?n s] =>
        destruct (CalculateA2_finish_run c n s) as [v Hv]; rewrite Hv
    end; eexists; reflexivity.
Qed.

End A2Facts.

(** C4 (as amended).  [CalculateA2 (FOUR_FOUR)] returns exactly 1 in every
    state and leaves the object alone; on that path the Action Evaluator
    is invoked exactly once, on the current counts, before the [switch],
    and the hypothetical action is never evaluated. *)
Theorem CalculateA2_FourFour_one (ext : External) (s : Metropolis) :
  CalculateA2 FOUR_FOUR s =
  Some (1%Q, s, [Ev_S3_bulk_action (N1_TL_ s) (N3_31_ s) (N3_22_ s)]).
Proof. reflexivity. Qed.

(** C4 (counterexample).  It is not so that [CalculateA2 (FOUR_FOUR)]
    returns without an Action Evaluator call: at counts (10, 20, 30) the
    trace of the call holds the evaluation of [S3_bulk_action] there. *)
Lemma CalculateA2_FourFour_calls_evaluator :
  ~ (forall (ext : External) (s : @Metropolis ext),
        value_of (CalculateA2 FOUR_FOUR) s = Some 1%Q /\
        action_points (trace_of (CalculateA2 FOUR_FOUR) s) = []).
Proof.
  intros H.
  destruct (H demo_ext (demo_state zero_tuple zero_tuple)) as [_ Hno].
  cbv in Hno. discriminate Hno.
Qed.

(** The Action Evaluator calls of [CalculateA2], kind by kind. *)
Lemma CalculateA2_action_points (ext : External) (move : move_type) (s : Metropolis) :
  action_points (trace_of (CalculateA2 move) s) =
  counts s ::
  match move with
  | TWO_THREE => [(UIntMax.sub (N1_TL_ s) 1, N3_31_ s, UIntMax.add (N3_22_ s) 1)]
  | THREE_TWO => [(UIntMax.add (N1_TL_ s) 1, N3_31_ s, UIntMax.sub (N3_22_ s) 1)]
  | TWO_SIX => [(UIntMax.add (N1_TL_ s) 2, UIntMax.add (N3_31_ s) 4, N3_22_ s)]
  | SIX_TWO => [(UIntMax.sub (N1_TL_ s) 2, N3_31_ s, UIntMax.sub (N3_22_ s) 4)]
  | FOUR_FOUR => []
  end.
Proof.
  unfold trace_of. destruct (CalculateA2_run move s) as [v Hv]. rewrite Hv.
  destruct move; reflexivity.
Qed.

(** C1 (evaluation of the code).  The hypothetical action of
    [CalculateA2] is taken at (N1_TL-1, N3_31, N3_22+1) for (2,3), at
    (N1_TL+1, N3_31, N3_22-1) for (3,2) and at (N1_TL-2, N3_31, N3_22-4)
    for (6,2), and in every state each of these differs from the counts
    moved by the kind's row of Table 1. *)
Theorem CalculateA2_hypothetical_points (ext : External) (s : Metropolis) :
  (exists p,
      action_points (trace_of (CalculateA2 TWO_THREE) s) = [counts s; p] /\
      p = (UIntMax.sub (N1_TL_ s) 1, N3_31_ s, UIntMax.add (N3_22_ s) 1) /\
      p <> Table1_apply TWO_THREE (counts s)) /\
  (exists p,
      action_points (trace_of (CalculateA2 THREE_TWO) s) = [counts s; p] /\
      p = (UIntMax.add (N1_TL_ s) 1, N3_31_ s, UIntMax.sub (N3_22_ s) 1) /\
      p <> Table1_apply THREE_TWO (counts s)) /\
  (exists p,
      action_points (trace_of (CalculateA2 SIX_TWO) s) = [counts s; p] /\
      p = (UIntMax.sub (N1_TL_ s) 2, N3_31_ s, UIntMax.sub (N3_22_ s) 4) /\
      p <> Table1_apply SIX_TWO (counts s)).
Proof.
  repeat split; eexists;
    (split; [rewrite CalculateA2_action_points; reflexivity|]);
    (split; [reflexivity|]); cbn [Table1_apply counts Table1];
    unfold UIntMax.add, UIntMax.sub; intros Heq; inversion Heq as [[H1 H2]].
  - revert H1. change (N1_TL_ s - 1) with (N1_TL_ s + -1).
    apply wrap_offsets_differ; [discriminate | cbv; split; reflexivity].
  - revert H1. apply wrap_offsets_differ; [discriminate | cbv; split; reflexivity].
  - revert H2. change (N3_22_ s - 4) with (N3_22_ s + -4).
    apply wrap_offsets_differ; [discriminate | cbv; split; reflexivity].
Qed.

(** The failing input of C1 run on the concrete collaborators: at counts
    (10, 20, 30) the (2,3) branch evaluates the action at (9, 20, 31),
    Table 1 gives (11, 20, 31). *)
Example CalculateA2_TwoThree_at_10_20_30 :
  action_points (trace_of (CalculateA2 TWO_THREE) (demo_state zero_tuple zero_tuple))
    = [(10, 20, 30); (9, 20, 31)] /\
  Table1_apply TWO_THREE (10, 20, 30) = (11, 20, 31).
Proof. split; reflexivity. Qed.

(** (2,6) is the one kind evaluated at its row of Table 1. *)
Lemma CalculateA2_TwoSix_point (ext : External) (s : Metropolis) :
  UIntMax.in_range (N3_22_ s) ->
  action_points (trace_of (CalculateA2 TWO_SIX) s) =
    [counts s; Table1_apply TWO_SIX (counts s)].
Proof.
  intros Hr. rewrite CalculateA2_action_points.
  cbn [Table1_apply counts Table1]. unfold UIntMax.add at 5.
  rewrite Z.add_0_r, (wrap_small _ Hr). reflexivity.
Qed.

(** ** [attempt_move] *)

Section AttemptFacts.

Context {ext : External}.

(** [CalculateA1] is [const] and calls no collaborator. *)
Lemma CalculateA1_const (move : move_type) (s : Metropolis) :
  CalculateA1 move s = None \/ exists v, CalculateA1 move s = Some (v, s, []).
Proof.
  unfold CalculateA1, bind, read, read_opt, ret.
  destruct (mpfr_div_RNDD _ _ _); [right; eexists; reflexivity | now left].
Qed.

Lemma move_rejected_run (move : move_type) (s : Metropolis) :
  move_rejected move s =
  Some (tt, set_attempted (incr_get move (attempted_moves_ s)) s, []).
Proof. destruct move; reflexivity. Qed.

(** What [attempt_move] does once the two ratios are known. *)
Lemma attempt_move_decided (move : move_type) (trialval : Q) (s : Metropolis) (b : bool) :
  decision move trialval s = Some b ->
  attempt_move move trialval s =
  match (if b then move_accepted move else move_rejected move) s with
  | Some (r, s', t) =>
      Some (r, s', Ev_attempt_move move :: trace_of (CalculateA2 move) s ++ t)
  | None => None
  end.
Proof.
  unfold decision, value_of, trace_of, attempt_move.
  destruct (CalculateA1_const move s) as [H1 | [a1 H1]];
    [rewrite H1; discriminate|].
  destruct (CalculateA2_run move s) as [a2 H2].
  unfold bind at 1 2 3, emit. rewrite H1, H2. intros Hb. inversion Hb; subst b.
  destruct (Qle_bool trialval (a1 * a2));
    match goal with
    | |- context [match ?c s with _ => _ end] => destruct (c s) as [[[r s'] t]|]
    end; reflexivity.
Qed.

(** [attempt_move] without a decision has no defined behaviour. *)
Lemma attempt_move_undecided (move : move_type) (trialval : Q) (s : Metropolis) :
  decision move trialval s = None -> attempt_move move trialval s = None.
Proof.
  unfold decision, value_of, attempt_move.
  destruct (CalculateA1_const move s) as [H1 | [a1 H1]].
  - intros _. unfold bind at 1 2, emit. rewrite H1. reflexivity.
  - rewrite H1. destruct (CalculateA2_run move s) as [a2 H2]. rewrite H2.
    discriminate.
Qed.

End AttemptFacts.

Section AttemptFrames.

Context {ext : External}.

Lemma CalculateA2_no_executor (move : move_type) (s : Metropolis) :
  filter is_executor_call (trace_of (CalculateA2 move) s) = [].
Proof.
  unfold trace_of. destruct (CalculateA2_run move s) as [v Hv]. rewrite Hv.
  destruct move; reflexivity.
Qed.

Lemma CalculateA2_no_attempt (move : move_type) (s : Metropolis) :
  filter is_attempt (trace_of (CalculateA2 move) s) = [].
Proof.
  unfold trace_of. destruct (CalculateA2_run move s) as [v Hv]. rewrite Hv.
  destruct move; reflexivity.
Qed.

Lemma get_incr_get_same (m : move_type) (t : move_tuple) :
  get m (incr_get m t) = UIntMax.incr (get m t).
Proof. destruct m; reflexivity. Qed.

Lemma get_incr_get_other (m k : move_type) (t : move_tuple) :
  k <> m -> get k (incr_get m t) = get k t.
Proof. destruct m, k; intros H; try reflexivity; now elim H. Qed.

(** The accepted branch of the three kinds that have an executor: the
    executor runs once, then the counts and the successful counter of the
    kind are updated. *)
Lemma move_accepted_run (move : move_type) (s : Metropolis) :
  exists s',
    move_accepted move s =
      Some (tt, s',
            match move with
            | SIX_TWO | FOUR_FOUR => []
            | _ => [Ev_make_move move]
            end) /\
    counts s' =
      match move with
      | TWO_THREE => (UIntMax.incr (N1_TL_ s), N3_31_ s, UIntMax.incr (N3_22_ s))
      | THREE_TWO => (UIntMax.decr (N1_TL_ s), N3_31_ s, UIntMax.decr (N3_22_ s))
      | TWO_SIX => (UIntMax.add (N1_TL_ s) 2, UIntMax.add (N3_31_ s) 4, N3_22_ s)
      | SIX_TWO | FOUR_FOUR => counts s
      end /\
    successful_moves_ s' =
      match move with
      | SIX_TWO | FOUR_FOUR => successful_moves_ s
      | _ => incr_get move (successful_moves_ s)
      end /\
    attempted_moves_ s' =
      match move with
      | TWO_THREE =>
          snd (make_23_move (universe_ptr_ s) (simplex_types_ s) (attempted_moves_ s))
      | THREE_TWO =>
          snd (make_32_move (universe_ptr_ s) (edge_types_ s) (attempted_moves_ s))
      | TWO_SIX =>
          snd (make_26_move (universe_ptr_ s) (simplex_types_ s) (attempted_moves_ s))
      | SIX_TWO | FOUR_FOUR => attempted_moves_ s
      end.
Proof.
  destruct move; eexists; (split; [reflexivity|]); repeat split.
Qed.

End AttemptFrames.

(** C7.  An accepted (6,2) or (4,4) move changes nothing in the object:
    neither N1_TL, N3_31, N3_22 nor the successful counter of the kind
    (nor any other member), and no executor is called. *)
Theorem attempt_move_accepted_SixTwo_FourFour_frame
    (ext : External) (move : move_type) (trialval : Q) (s : Metropolis) :
  move = SIX_TWO \/ move = FOUR_FOUR ->
  accepted move trialval s ->
  exists s' t,
    attempt_move move trialval s = Some (tt, s', t) /\
    s' = s /\
    counts s' = counts s /\
    successful_moves_ s' = successful_moves_ s /\
    filter is_executor_call t = [].
Proof.
  intros Hm Hacc. rewrite (attempt_move_decided _ _ _ true Hacc).
  destruct Hm; subst move; cbn [move_accepted ret];
    exists s; eexists; (split; [reflexivity|]); repeat split;
    cbn [filter is_executor_call]; rewrite filter_app, CalculateA2_no_executor;
    reflexivity.
Qed.

(** An accepted (4,4) move on the concrete collaborators. *)
Lemma attempt_move_accepted_SixTwo_FourFour_frame_witness :
  let s := demo_state (mk_move_tuple 1 1 1 1 1) (mk_move_tuple 1 1 1 0 0) in
  (FOUR_FOUR = SIX_TWO \/ FOUR_FOUR = FOUR_FOUR) /\
  accepted FOUR_FOUR (1 # 8) s /\
  exists s' t,
    attempt_move FOUR_FOUR (1 # 8) s = Some (tt, s', t) /\
    s' = s /\
    counts s' = counts s /\
    successful_moves_ s' = successful_moves_ s /\
    filter is_executor_call t = [].
Proof.
  intros s.
  assert (Hm : FOUR_FOUR = SIX_TWO \/ FOUR_FOUR = FOUR_FOUR) by (right; reflexivity).
  assert (Hacc : accepted FOUR_FOUR (1 # 8) s) by (vm_compute; reflexivity).
  split; [exact Hm|]. split; [exact Hacc|].
  exact (attempt_move_accepted_SixTwo_FourFour_frame demo_ext FOUR_FOUR (1 # 8) s Hm Hacc).
Defined.

(** C8.  A rejected proposal of any kind adds one (modulo [2^64]) to the
    attempted counter of that kind and does nothing else: the counts,
    the successful counters, the other attempted counters and every
    other member are as before, and no executor is called. *)
Theorem attempt_move_rejected_frame
    (ext : External) (move : move_type) (trial_double : Q) (s : Metropolis) :
  rejected move trial_double s ->
  exists s' t,
    attempt_move move trial_double s = Some (tt, s', t) /\
    get move (attempted_moves_ s') = (get move (attempted_moves_ s) + 1) mod 2 ^ 64 /\
    (forall k, k <> move -> get k (attempted_moves_ s') = get k (attempted_moves_ s)) /\
    s' = set_attempted (attempted_moves_ s') s /\
    counts s' = counts s /\
    successful_moves_ s' = successful_moves_ s /\
    filter is_executor_call t = [].
Proof.
  intros Hrej. rewrite (attempt_move_decided _ _ _ false Hrej).
  rewrite move_rejected_run. eexists; eexists. split; [reflexivity|].
  cbn [attempted_moves_ set_attempted].
  split; [rewrite get_incr_get_same; reflexivity|].
  split; [intros k Hk; now apply get_incr_get_other|].
  repeat split.
  cbn [filter is_executor_call].
  rewrite filter_app, CalculateA2_no_executor. reflexivity.
Qed.

(** A rejected (3,2) proposal with [trial = 0.999999]: the attempted
    counter of (3,2) goes from 1 to 2. *)
Lemma attempt_move_rejected_frame_witness :
  let s := demo_state (mk_move_tuple 1 1 1 0 0) (mk_move_tuple 1 1 1 0 0) in
  rejected THREE_TWO (999999 # 1000000) s /\
  exists s' t,
    attempt_move THREE_TWO (999999 # 1000000) s = Some (tt, s', t) /\
    get THREE_TWO (attempted_moves_ s') = 2 /\
    (forall k, k <> THREE_TWO ->
               get k (attempted_moves_ s') = get k (attempted_moves_ s)) /\
    s' = set_attempted (attempted_moves_ s') s /\
    counts s' = (10, 20, 30) /\
    successful_moves_ s' = mk_move_tuple 1 1 1 0 0 /\
    filter is_executor_call t = [].
Proof.
  intros s.
  assert (Hrej : rejected THREE_TWO (999999 # 1000000) s) by (vm_compute; reflexivity).
  split; [exact Hrej|].
  exact (attempt_move_rejected_frame demo_ext THREE_TWO (999999 # 1000000) s Hrej).
Defined.

(** C2 (evaluation at the failing input).  An accepted (6,2) move at
    counts (10, 20, 30) leaves the counts at (10, 20, 30); the row of
    Table 1 gives (8, 16, 30). *)
Theorem attempt_move_accepted_SixTwo_keeps_counts :
  let s := demo_state (mk_move_tuple 1 1 1 1 0) (mk_move_tuple 1 1 1 0 0) in
  accepted SIX_TWO 0 s /\
  (exists s' t,
      attempt_move SIX_TWO 0 s = Some (tt, s', t) /\ counts s' = (10, 20, 30)) /\
  Table1_apply SIX_TWO (counts s) = (8, 16, 30).
Proof.
  intros s.
  assert (Hacc : accepted SIX_TWO 0 s) by (vm_compute; reflexivity).
  split; [exact Hacc|]. split; [|reflexivity].
  rewrite (attempt_move_decided _ _ _ true Hacc).
  cbn [move_accepted ret]. eexists; eexists. split; reflexivity.
Qed.

(** The accepted kinds that do follow Table 1: (2,3), (3,2), (2,6) and,
    trivially, (4,4). *)
Lemma attempt_move_accepted_Table1
    (ext : External) (move : move_type) (trialval : Q) (s : Metropolis) :
  move <> SIX_TWO ->
  UIntMax.in_range (N1_TL_ s) -> UIntMax.in_range (N3_31_ s) ->
  UIntMax.in_range (N3_22_ s) ->
  accepted move trialval s ->
  exists s' t,
    attempt_move move trialval s = Some (tt, s', t) /\
    counts s' = Table1_apply move (counts s).
Proof.
  intros Hm H1 H31 H22 Hacc. rewrite (attempt_move_decided _ _ _ true Hacc).
  destruct (move_accepted_run move s) as (s' & Hrun & Hc & _).
  rewrite Hrun. eexists; eexists. split; [reflexivity|]. rewrite Hc.
  destruct move; try (now elim Hm);
    cbn [Table1_apply counts Table1];
    unfold UIntMax.incr, UIntMax.decr, UIntMax.add, UIntMax.sub;
    rewrite ?Z.add_0_r, ?(wrap_small _ H1), ?(wrap_small _ H31), ?(wrap_small _ H22);
    reflexivity.
Qed.

(** ** Counters along a run *)

Lemma modulus_value : UIntMax.modulus = 18446744073709551616.
Proof. reflexivity. Qed.

Lemma incr_small (x : Z) :
  0 <= x < UIntMax.modulus - 1 -> UIntMax.incr x = x + 1.
Proof.
  intros H. unfold UIntMax.incr, UIntMax.add. apply wrap_small.
  unfold UIntMax.in_range. lia.
Qed.

Section RunFacts.

Context {ext : External}.

Hypothesis Hexec : executor_counts_once.
Hypothesis HPREC : 1 <= PRECISION.

Lemma TotalMoves_small (n : Z) (s : Metropolis) :
  counters_within n s -> 5 * n < UIntMax.modulus ->
  TotalMoves s =
    get0 (attempted_moves_ s) + get1 (attempted_moves_ s) +
    get2 (attempted_moves_ s) + get3 (attempted_moves_ s) +
    get4 (attempted_moves_ s).
Proof.
  intros Hc Hn.
  pose proof (Hc TWO_THREE) as H0. pose proof (Hc THREE_TWO) as H1.
  pose proof (Hc TWO_SIX) as H2. pose proof (Hc SIX_TWO) as H3.
  pose proof (Hc FOUR_FOUR) as H4. cbn [get] in *.
  unfold TotalMoves, UIntMax.add.
  rewrite !wrap_small; unfold UIntMax.in_range; rewrite ?wrap_small;
    unfold UIntMax.in_range; rewrite ?wrap_small; unfold UIntMax.in_range;
    rewrite ?wrap_small; unfold UIntMax.in_range; lia.
Qed.

Lemma TotalMoves_range (s : Metropolis) : UIntMax.in_range (TotalMoves s).
Proof. unfold TotalMoves, UIntMax.add. apply wrap_range. Qed.

(** Once some move has been attempted, [CalculateA1] has a value. *)
Lemma CalculateA1_defined (move : move_type) (s : Metropolis) :
  0 < TotalMoves s -> exists v, CalculateA1 move s = Some (v, s, []).
Proof.
  intros Htot.
  unfold CalculateA1, bind, read, read_opt, ret, mpfr_div_RNDD.
  match goal with
  | |- context [Qeq_bool ?r 0] => destruct (Qeq_bool r 0) eqn:Hz
  end; [|eexists; reflexivity].
  exfalso. apply Qeq_bool_iff in Hz. unfold mpfr_set_ui_RNDD in Hz.
  assert (Hu : ulong_of (TotalMoves s) = TotalMoves s).
  { unfold ulong_of. apply Z.mod_small. apply TotalMoves_range. }
  rewrite Hu in Hz.
  assert (Hq : (0 < inject_Z (TotalMoves s))%Q) by (rewrite <- (Zlt_Qlt 0); assumption).
  pose proof (round_down_pos PRECISION _ HPREC Hq) as Hpos.
  rewrite Hz in Hpos. discriminate Hpos.
Qed.

Lemma decision_defined (move : move_type) (trialval : Q) (s : Metropolis) :
  0 < TotalMoves s -> exists b, decision move trialval s = Some b.
Proof.
  intros Htot. unfold decision, value_of.
  destruct (CalculateA1_defined move s Htot) as [a1 H1]. rewrite H1.
  destruct (CalculateA2_run move s) as [a2 H2]. rewrite H2.
  eexists; reflexivity.
Qed.

End RunFacts.

Section RunSteps.

Context {ext : External}.

Hypothesis Hexec : executor_counts_once.
Hypothesis HPREC : 1 <= PRECISION.

Lemma executor_attempted (move : move_type) (s s' : Metropolis) (t : list event) :
  seeded move = true ->
  move_accepted move s = Some (tt, s', t) ->
  attempted_moves_ s' = incr_get move (attempted_moves_ s) /\
  successful_moves_ s' = incr_get move (successful_moves_ s) /\
  passes_ s' = passes_ s /\
  t = [Ev_make_move move].
Proof.
  destruct Hexec as (H23 & H32 & H26).
  destruct move; try discriminate; intros _ Hrun;
    cbv [move_accepted bind call_make_23_move call_make_32_move
         call_make_26_move modify] in Hrun;
    inversion Hrun; subst; cbn; rewrite ?H23, ?H32, ?H26; repeat split.
Qed.

Lemma counters_within_incr_attempted (n : Z) (move : move_type) (s s' : Metropolis) :
  counters_within n s -> n + 1 < UIntMax.modulus ->
  attempted_moves_ s' = incr_get move (attempted_moves_ s) ->
  successful_moves_ s' = successful_moves_ s ->
  counters_within (n + 1) s'.
Proof.
  intros Hc Hn Ha Hs k. rewrite Ha, Hs.
  destruct (Hc k) as [[Hk0 Hk1] Hk2].
  destruct (Hc move) as [[Hm0 Hm1] Hm2].
  assert (Hi : UIntMax.incr (get move (attempted_moves_ s)) =
               get move (attempted_moves_ s) + 1) by (apply incr_small; lia).
  destruct move, k; cbn [get incr_get get0 get1 get2 get3 get4] in *;
    rewrite ?Hi; lia.
Qed.

Lemma counters_within_incr_both (n : Z) (move : move_type) (s s' : Metropolis) :
  counters_within n s -> n + 1 < UIntMax.modulus ->
  attempted_moves_ s' = incr_get move (attempted_moves_ s) ->
  successful_moves_ s' = incr_get move (successful_moves_ s) ->
  counters_within (n + 1) s'.
Proof.
  intros Hc Hn Ha Hs k. rewrite Ha, Hs.
  destruct (Hc k) as [[Hk0 Hk1] Hk2].
  destruct (Hc move) as [[Hm0 Hm1] Hm2].
  assert (Hi : UIntMax.incr (get move (attempted_moves_ s)) =
               get move (attempted_moves_ s) + 1) by (apply incr_small; lia).
  assert (Hj : UIntMax.incr (get move (successful_moves_ s)) =
               get move (successful_moves_ s) + 1) by (apply incr_small; lia).
  destruct move, k; cbn [get incr_get get0 get1 get2 get3 get4] in *;
    rewrite ?Hi, ?Hj; lia.
Qed.

Lemma counters_within_weaken (n m : Z) (s : Metropolis) :
  counters_within n s -> n <= m -> counters_within m s.
Proof. intros Hc Hnm k. destruct (Hc k) as [H1 H2]. split; [assumption | lia]. Qed.

Lemma TotalMoves_pos (n : Z) (s : Metropolis) :
  counters_within n s -> 5 * n < UIntMax.modulus ->
  1 <= get TWO_THREE (attempted_moves_ s) ->
  0 < TotalMoves s.
Proof.
  intros Hc Hn H1. rewrite (TotalMoves_small n s Hc Hn).
  pose proof (Hc THREE_TWO) as H1'. pose proof (Hc TWO_SIX) as H2.
  pose proof (Hc SIX_TWO) as H3. pose proof (Hc FOUR_FOUR) as H4.
  cbn [get] in *. lia.
Qed.

(** One [attempt_move] of a seeded kind, in a state where some (2,3) move
    has been attempted and the counters are far from overflow. *)
Lemma attempt_move_step (n : Z) (move : move_type) (trialval : Q) (s : Metropolis) :
  seeded move = true ->
  counters_within n s -> 5 * (n + 1) < UIntMax.modulus ->
  1 <= get TWO_THREE (attempted_moves_ s) ->
  exists s' t,
    attempt_move move trialval s = Some (tt, s', t) /\
    counters_within (n + 1) s' /\
    1 <= get TWO_THREE (attempted_moves_ s') /\
    (forall k, seeded k = false ->
       get k (attempted_moves_ s') = get k (attempted_moves_ s) /\
       get k (successful_moves_ s') = get k (successful_moves_ s)) /\
    passes_ s' = passes_ s /\
    count_attempts t = 1%nat /\
    forallb event_of_seeded_kind t = true.
Proof.
  intros Hseed Hc Hn H1.
  assert (Hn0 : 0 <= n) by (destruct (Hc TWO_THREE); lia).
  assert (Hn1 : n + 1 < UIntMax.modulus) by lia.
  assert (Htot : 0 < TotalMoves s) by (apply (TotalMoves_pos n); [assumption | lia | assumption]).
  destruct (decision_defined HPREC move trialval s Htot) as [b Hb].
  rewrite (attempt_move_decided _ _ _ b Hb).
  assert (Htr : forall t',
    count_attempts t' = 0%nat -> forallb event_of_seeded_kind t' = true ->
    count_attempts (Ev_attempt_move move :: trace_of (CalculateA2 move) s ++ t') = 1%nat /\
    forallb event_of_seeded_kind
      (Ev_attempt_move move :: trace_of (CalculateA2 move) s ++ t') = true).
  { intros t' Hcnt Hall. unfold count_attempts in *. cbn [filter is_attempt].
    rewrite filter_app, CalculateA2_no_attempt. cbn [app length]. rewrite Hcnt.
    split; [reflexivity|]. cbn [forallb event_of_seeded_kind].
    rewrite Hseed, forallb_app, Hall. cbn [andb]. rewrite andb_true_r.
    unfold trace_of. destruct (CalculateA2_run move s) as [v Hv]. rewrite Hv.
    destruct move; reflexivity. }
  assert (Hg : forall x, 0 <= x <= n -> 1 <= x -> 1 <= UIntMax.incr x).
  { intros x Hx Hx1. rewrite incr_small; lia. }
  assert (Hb0 : 1 <= get TWO_THREE (attempted_moves_ s) <= n)
    by (destruct (Hc TWO_THREE); lia).
  destruct b.
  - destruct (move_accepted_run move s) as (s' & Hrun & _).
    rewrite Hrun.
    destruct (executor_attempted move s s' _ Hseed Hrun) as (Ha & Hs & Hp & Ht).
    exists s'. eexists. split; [reflexivity|].
    split; [apply (counters_within_incr_both n move s); (assumption || lia)|].
    split.
    { rewrite Ha.
      destruct move; cbn [get incr_get get0 get1 get2 get3 get4] in *;
        try apply Hg; lia. }
    split.
    { intros k Hk. rewrite Ha, Hs.
      split; apply get_incr_get_other; intros ->; congruence. }
    split; [assumption|].
    rewrite Ht. apply Htr; [reflexivity|]. cbn. rewrite Hseed. reflexivity.
  - rewrite move_rejected_run. eexists; eexists. split; [reflexivity|].
    split; [apply (counters_within_incr_attempted n move s); (reflexivity || assumption || lia)|].
    split.
    { cbn [attempted_moves_ set_attempted].
      destruct move; cbn [get incr_get get0 get1 get2 get3 get4] in *;
        try apply Hg; lia. }
    split.
    { intros k Hk. cbn. split; [|reflexivity].
      apply get_incr_get_other; intros ->; congruence. }
    split; [reflexivity|].
    apply Htr; reflexivity.
Qed.

(** Any [attempt_move] that returns, of whatever kind, keeps the counter
    pairs ordered. *)
Lemma attempt_move_keeps_order (n : Z) (move : move_type) (trialval : Q)
    (s s' : Metropolis) (t : list event) :
  counters_within n s -> n + 1 < UIntMax.modulus ->
  attempt_move move trialval s = Some (tt, s', t) ->
  counters_within (n + 1) s'.
Proof.
  intros Hc Hn Hrun.
  destruct (decision move trialval s) as [b|] eqn:Hb;
    [|rewrite (attempt_move_undecided _ _ _ Hb) in Hrun; discriminate Hrun].
  rewrite (attempt_move_decided _ _ _ b Hb) in Hrun.
  destruct b.
  - destruct (move_accepted_run move s) as (s1 & Hacc & _ & Hs & Ha).
    rewrite Hacc in Hrun. inversion Hrun; subst s1.
    destruct (seeded move) eqn:Hseed.
    + destruct (executor_attempted move s s' _ Hseed Hacc) as (Ha' & Hs' & _).
      apply (counters_within_incr_both n move s); assumption.
    + apply (counters_within_weaken n); [|lia].
      intros k. destruct move; try discriminate; rewrite Ha, Hs; apply Hc.
  - rewrite move_rejected_run in Hrun. inversion Hrun; subst s'.
    apply (counters_within_incr_attempted n move s); (reflexivity || assumption).
Qed.

End RunSteps.

Section RunLoop.

Context {ext : External}.

Hypothesis Hexec : executor_counts_once.
Hypothesis HPREC : 1 <= PRECISION.

Variable choice_raw : nat -> Z.
Variable trialval : nat -> Q.

(** The loop proposes (2,3), (3,2) and (2,6) moves only. *)
Lemma loop_body_seeded (i : nat) :
  exists move,
    seeded move = true /\
    loop_body choice_raw trialval i = attempt_move move (trialval i).
Proof.
  unfold loop_body, generate_random_unsigned.
  assert (Hr : 0 <= choice_raw i mod (2 - 0 + 1) < 3)
    by (apply Z.mod_pos_bound; reflexivity).
  set (r := choice_raw i mod (2 - 0 + 1)) in *.
  assert (Hcases : r = 0 \/ r = 1 \/ r = 2) by lia.
  destruct Hcases as [-> | [-> | ->]]; cbn [Z.add move_of_choice].
  - exists TWO_THREE. split; reflexivity.
  - exists THREE_TWO. split; reflexivity.
  - exists TWO_SIX. split; reflexivity.
Qed.

Lemma for_loop_run (count : nat) :
  forall (start : nat) (n : Z) (s : Metropolis),
    counters_within n s ->
    5 * (n + Z.of_nat count) < UIntMax.modulus ->
    1 <= get TWO_THREE (attempted_moves_ s) ->
    exists s' t,
      for_loop start count (loop_body choice_raw trialval) s = Some (tt, s', t) /\
      stretch_post (n + Z.of_nat count) count s s' t.
Proof.
  induction count as [|count IH]; intros start n s Hc Hn H1.
  - exists s, []. split; [reflexivity|].
    rewrite Z.add_0_r. split; [assumption|]. split; [assumption|].
    split; [intros k _; split; reflexivity|]. repeat split.
  - cbn [for_loop]. unfold bind at 1.
    destruct (loop_body_seeded start) as (move & Hseed & Hbody). rewrite Hbody.
    destruct (attempt_move_step Hexec HPREC n move (trialval start) s Hseed Hc)
      as (s1 & t1 & Hrun & Hc1 & H11 & Hfr1 & Hp1 & Hcnt1 & Hall1);
      [lia | assumption |].
    rewrite Hrun.
    destruct (IH (S start) (n + 1) s1 Hc1) as (s2 & t2 & Hrun2 & Hpost);
      [lia | assumption |].
    rewrite Hrun2. exists s2, (t1 ++ t2). split; [reflexivity|].
    destruct Hpost as (Hc2 & H12 & Hfr2 & Hp2 & Hcnt2 & Hall2).
    replace (n + Z.of_nat (S count)) with (n + 1 + Z.of_nat count) by lia.
    split; [assumption|]. split; [assumption|]. split.
    { intros k Hk. destruct (Hfr2 k Hk) as [-> ->]. apply (Hfr1 k Hk). }
    split; [congruence|]. split.
    + unfold count_attempts in *. rewrite filter_app, length_app, Hcnt1, Hcnt2.
      reflexivity.
    + rewrite forallb_app, Hall1, Hall2. reflexivity.
Qed.

Lemma populate_run (universe_ptr : Universe) (s : Metropolis) :
  exists s',
    populate universe_ptr s = Some (tt, s', []) /\
    attempted_moves_ s' = attempted_moves_ s /\
    successful_moves_ s' = successful_moves_ s /\
    passes_ s' = passes_ s.
Proof. eexists. split; [reflexivity|]. repeat split. Qed.

Lemma seed_moves_run (s : Metropolis) :
  exists s',
    seed_moves s =
      Some (tt, s', [Ev_make_move TWO_THREE; Ev_make_move THREE_TWO; Ev_make_move TWO_SIX]) /\
    attempted_moves_ s' =
      incr_get TWO_SIX (incr_get THREE_TWO (incr_get TWO_THREE (attempted_moves_ s))) /\
    successful_moves_ s' =
      incr_get TWO_SIX (incr_get THREE_TWO (incr_get TWO_THREE (successful_moves_ s))) /\
    passes_ s' = passes_ s.
Proof.
  destruct Hexec as (H23 & H32 & H26).
  eexists. split; [reflexivity|].
  cbn. rewrite H26, H32, H23. repeat split.
Qed.

(** After seeding, every seeded kind has one more attempted and one more
    successful move. *)
Lemma seeded_counters_within (n : Z) (s s' : Metropolis) :
  counters_within n s -> n + 1 < UIntMax.modulus ->
  attempted_moves_ s' =
    incr_get TWO_SIX (incr_get THREE_TWO (incr_get TWO_THREE (attempted_moves_ s))) ->
  successful_moves_ s' =
    incr_get TWO_SIX (incr_get THREE_TWO (incr_get TWO_THREE (successful_moves_ s))) ->
  counters_within (n + 1) s' /\
  1 <= get TWO_THREE (attempted_moves_ s') /\
  (forall k, seeded k = false ->
     get k (attempted_moves_ s') = get k (attempted_moves_ s) /\
     get k (successful_moves_ s') = get k (successful_moves_ s)).
Proof.
  intros Hc Hn Ha Hs. rewrite Ha, Hs.
  pose proof (Hc TWO_THREE) as H0. pose proof (Hc THREE_TWO) as H1.
  pose proof (Hc TWO_SIX) as H2.
  cbn [get] in H0, H1, H2.
  pose proof (fun x (H : 0 <= x <= n) =>
                incr_small x ltac:(lia)) as Hi.
  split; [|split].
  - intros k. rewrite Ha, Hs. pose proof (Hc k) as Hk.
    destruct k; cbn [get incr_get get0 get1 get2 get3 get4] in *;
      rewrite ?Hi by lia; lia.
  - cbn [get incr_get get0 get1 get2 get3 get4]. rewrite Hi by lia. lia.
  - intros k Hk. destruct k; try discriminate; split; reflexivity.
Qed.

(** [operator()] up to any iteration of its loop, from an object whose
    counters are ordered and far from overflow. *)
Lemma operator_call_upto_run (count : nat) (universe_ptr : Universe)
    (n : Z) (s : Metropolis) :
  counters_within n s ->
  5 * (n + 1 + Z.of_nat count) < UIntMax.modulus ->
  exists s' t,
    operator_call_upto count universe_ptr choice_raw trialval s = Some (tt, s', t) /\
    stretch_post (n + 1 + Z.of_nat count) count s s' t.
Proof.
  intros Hc Hn.
  assert (Hn0 : 0 <= n) by (destruct (Hc TWO_THREE); lia).
  unfold operator_call_upto. unfold bind at 1.
  destruct (populate_run universe_ptr s) as (s0 & Hpop & Ha0 & Hs0 & Hp0).
  rewrite Hpop. unfold bind at 1.
  destruct (seed_moves_run s0) as (s1 & Hseed & Ha1 & Hs1 & Hp1).
  rewrite Hseed.
  assert (Hc0 : counters_within n s0).
  { intros k. rewrite Ha0, Hs0. apply Hc. }
  destruct (seeded_counters_within n s0 s1 Hc0 ltac:(lia) Ha1 Hs1)
    as (Hc1 & H11 & Hfr1).
  destruct (for_loop_run count 0 (n + 1) s1 Hc1 Hn H11)
    as (s2 & t2 & Hrun & Hc2 & H12 & Hfr2 & Hp2 & Hcnt2 & Hall2).
  rewrite Hrun. eexists; eexists. split; [reflexivity|].
  split; [assumption|]. split; [assumption|]. split.
  { intros k Hk. destruct (Hfr2 k Hk) as [-> ->]. destruct (Hfr1 k Hk) as [-> ->].
    rewrite Ha0, Hs0. split; reflexivity. }
  split; [congruence|]. split.
  - unfold count_attempts in *. cbn [app filter is_attempt]. assumption.
  - cbn [app forallb event_of_seeded_kind seeded andb]. assumption.
Qed.

End RunLoop.

(** ** A run: construction, then [operator()] *)

Lemma ctor_counters_within (ext : External) (universe : Universe)
    (Alpha K Lambda : Long_double) (passes output_every_n_passes : Z)
    (st : Simplex_types) (et : Edge_types) :
  counters_within 0
    (Metropolis_ctor universe Alpha K Lambda passes output_every_n_passes st et).
Proof. intros k. destruct k; cbn; lia. Qed.

Lemma counters_within_covers (ext : External) (n : Z) (s : Metropolis) :
  counters_within n s -> attempted_covers_successful s.
Proof. intros Hc k. destruct (Hc k) as [[_ H] _]. exact H. Qed.

Lemma demo_executor_counts_once : executor_counts_once (ext := demo_ext).
Proof. repeat split. Qed.

(** *** The run parameters *)

Section ParameterFacts.

Context {ext : External}.

Lemma move_accepted_keeps_parameters (move : move_type) (s s' : Metropolis)
    (t : list event) :
  move_accepted move s = Some (tt, s', t) ->
  passes_ s' = passes_ s /\
  output_every_n_passes_ s' = output_every_n_passes_ s.
Proof.
  destruct move; intros Hrun;
    cbv [move_accepted bind call_make_23_move call_make_32_move
         call_make_26_move modify ret] in Hrun;
    inversion Hrun; subst; split; reflexivity.
Qed.

Lemma attempt_move_keeps_parameters (move : move_type) (trial_double : Q)
    (s s' : Metropolis) (t : list event) :
  attempt_move move trial_double s = Some (tt, s', t) ->
  passes_ s' = passes_ s /\
  output_every_n_passes_ s' = output_every_n_passes_ s.
Proof.
  intros Hrun.
  destruct (decision move trial_double s) as [b|] eqn:Hb;
    [|rewrite (attempt_move_undecided _ _ _ Hb) in Hrun; discriminate Hrun].
  rewrite (attempt_move_decided _ _ _ b Hb) in Hrun.
  destruct b.
  - destruct (move_accepted move s) as [[[[] s1] t1]|] eqn:Hacc; [|discriminate Hrun].
    inversion Hrun; subst s1.
    apply (move_accepted_keeps_parameters move s s' t1 Hacc).
  - rewrite move_rejected_run in Hrun. inversion Hrun; subst s'.
    split; reflexivity.
Qed.

Lemma for_loop_keeps_parameters (choice_raw : nat -> Z) (trial_double : nat -> Q)
    (count : nat) :
  forall (start : nat) (s s' : Metropolis) (t : list event),
    for_loop start count (loop_body choice_raw trial_double) s = Some (tt, s', t) ->
    passes_ s' = passes_ s /\
    output_every_n_passes_ s' = output_every_n_passes_ s.
Proof.
  induction count as [|count IH]; intros start s s' t Hrun.
  - cbn in Hrun. inversion Hrun; subst. split; reflexivity.
  - cbn [for_loop] in Hrun. unfold bind at 1 in Hrun.
    destruct (loop_body_seeded choice_raw trial_double start) as (move & _ & Hbody).
    rewrite Hbody in Hrun.
    destruct (attempt_move move (trial_double start) s) as [[[[] s1] t1]|] eqn:Hstep;
      [|discriminate Hrun].
    destruct (for_loop (S start) count (loop_body choice_raw trial_double) s1)
      as [[[[] s2] t2]|] eqn:Hrest; [|discriminate Hrun].
    inversion Hrun; subst s2.
    destruct (attempt_move_keeps_parameters move _ s s1 t1 Hstep) as [Ha Hb].
    destruct (IH (S start) s1 s' t2 Hrest) as [Hc Hd].
    split; congruence.
Qed.

Lemma populate_keeps_parameters (universe_ptr : Universe) (s : Metropolis) :
  exists s',
    populate universe_ptr s = Some (tt, s', []) /\
    passes_ s' = passes_ s /\
    output_every_n_passes_ s' = output_every_n_passes_ s.
Proof. eexists. split; [reflexivity|]. split; reflexivity. Qed.

Lemma seed_moves_keeps_parameters (s : Metropolis) :
  exists s' t,
    seed_moves s = Some (tt, s', t) /\
    passes_ s' = passes_ s /\
    output_every_n_passes_ s' = output_every_n_passes_ s.
Proof.
  eexists; eexists. split; [reflexivity|].
  cbn [passes_ output_every_n_passes_ set_N1_TL set_N3_31 set_N3_22
       set_successful set_attempted set_universe].
  split; reflexivity.
Qed.

End ParameterFacts.

(** C3 (evaluation of the code).  [operator()] never reads [passes_] nor
    [output_every_n_passes_]: on any object whose counters are ordered
    and far from overflow, whatever the two members hold, a call runs
    the move loop once, returns after exactly 10 calls of [attempt_move]
    (not [passes] times the budget), and leaves [Passes ()] and
    [Output ()] as they were. *)
Theorem operator_call_ten_attempts (ext : External) :
  executor_counts_once -> 1 <= PRECISION ->
  forall (n : Z) (s : Metropolis) (universe_ptr : Universe)
         (choice_raw : nat -> Z) (trial_double : nat -> Q),
  counters_within n s ->
  5 * (n + 11) < UIntMax.modulus ->
  exists r s' t,
    operator_call universe_ptr choice_raw trial_double s = Some (r, s', t) /\
    count_attempts t = 10%nat /\
    Passes s' = Passes s /\
    Output s' = Output s.
Proof.
  intros Hexec HPREC n s universe_ptr raw trial Hc Hn.
  assert (Hn0 : 0 <= n) by (destruct (Hc TWO_THREE); lia).
  destruct (populate_run universe_ptr s) as (s1 & Hpop & Ha1 & Hs1 & _).
  destruct (populate_keeps_parameters universe_ptr s) as (s1' & Hpop' & Hp1 & Ho1).
  rewrite Hpop in Hpop'. inversion Hpop'; subst s1'.
  destruct (seed_moves_run Hexec s1) as (s2 & Hseed & Ha2 & Hs2 & _).
  destruct (seed_moves_keeps_parameters s1) as (s2' & t2' & Hseed' & Hp2 & Ho2).
  rewrite Hseed in Hseed'. inversion Hseed'; subst s2'.
  assert (Hc1 : counters_within n s1).
  { intros k. rewrite Ha1, Hs1. apply Hc. }
  destruct (seeded_counters_within n s1 s2 Hc1 ltac:(lia) Ha2 Hs2) as (Hc2 & H12 & _).
  destruct (for_loop_run Hexec HPREC raw trial total_simplices_this_pass 0 (n + 1) s2 Hc2)
    as (s3 & t3 & Hloop & _ & _ & _ & _ & Hcnt & _);
    [unfold total_simplices_this_pass; lia | assumption |].
  destruct (for_loop_keeps_parameters raw trial _ 0%nat s2 s3 t3 Hloop) as [Hp3 Ho3].
  exists (universe_ptr_ s3), s3. eexists. split.
  { unfold operator_call, operator_call_upto. unfold bind at 1. unfold bind at 1.
    rewrite Hpop. unfold bind at 1. rewrite Hseed, Hloop. reflexivity. }
  split.
  { rewrite app_nil_r. unfold count_attempts in *. cbn [app filter is_attempt].
    exact Hcnt. }
  unfold Passes, Output. split; congruence.
Qed.

(** An object configured with 5 passes, reporting every 7 passes: 10
    attempts, not 50. *)
Lemma operator_call_ten_attempts_witness :
  let s := Metropolis_ctor (ext := demo_ext) 0%nat 1%Q 1%Q 1%Q 5 7 ([], [], []) ([], 0) in
  executor_counts_once (ext := demo_ext) /\
  1 <= @PRECISION demo_ext /\
  counters_within 0 s /\
  5 * (0 + 11) < UIntMax.modulus /\
  exists r s' t,
    operator_call (ext := demo_ext) 0%nat (fun i => Z.of_nat i) (fun _ => (1 # 2)%Q) s
      = Some (r, s', t) /\
    count_attempts t = 10%nat /\
    Passes s' = 5 /\
    Output s' = 7.
Proof.
  intros s.
  assert (H1 : 1 <= @PRECISION demo_ext) by (cbn; lia).
  assert (Hc : counters_within 0 s) by (intros k; destruct k; cbn; lia).
  assert (Hn : 5 * (0 + 11) < UIntMax.modulus) by reflexivity.
  split; [exact demo_executor_counts_once|]. split; [exact H1|].
  split; [exact Hc|]. split; [exact Hn|].
  exact (operator_call_ten_attempts demo_ext demo_executor_counts_once H1
           0 s 0%nat (fun i => Z.of_nat i) (fun _ => (1 # 2)%Q) Hc Hn).
Defined.

(** The attempt budget is not executed [passes] times: an object
    configured with 5 passes makes 10 attempts, not 5 * 10. *)
Lemma operator_call_attempts_ignore_passes :
  ~ (forall passes : Z, 0 < passes ->
       exists r s' t,
         operator_call (ext := demo_ext) 0%nat (fun i => Z.of_nat i)
           (fun _ => (1 # 2)%Q) (demo_fresh passes) = Some (r, s', t) /\
         count_attempts t = (Z.to_nat passes * total_simplices_this_pass)%nat).
Proof.
  intros H. destruct (H 5 ltac:(lia)) as (r & s' & t & Hrun & Hcnt).
  assert (Ht : trace_of (operator_call (ext := demo_ext) 0%nat
                           (fun i => Z.of_nat i) (fun _ => (1 # 2)%Q))
                 (demo_fresh 5) = t).
  { unfold trace_of. rewrite Hrun. reflexivity. }
  assert (Hc : count_attempts
                 (trace_of (operator_call (ext := demo_ext) 0%nat
                              (fun i => Z.of_nat i) (fun _ => (1 # 2)%Q))
                    (demo_fresh 5)) = 10%nat)
    by (vm_compute; reflexivity).
  rewrite Ht in Hc. rewrite Hc in Hcnt. discriminate Hcnt.
Qed.

(** C9.  Along a run, each attempted counter covers its successful
    counter: in the constructed object, after seeding (no iteration),
    and after each further [attempt_move] of the loop, provided each
    executor call counts one attempt of its kind. *)
Theorem run_attempted_covers_successful (ext : External) :
  executor_counts_once -> 1 <= PRECISION ->
  forall (universe : Universe) (Alpha K Lambda : Long_double)
         (passes output_every_n_passes : Z)
         (st : Simplex_types) (et : Edge_types)
         (universe_ptr : Universe) (choice_raw : nat -> Z) (trialval : nat -> Q),
  let s0 := Metropolis_ctor universe Alpha K Lambda passes output_every_n_passes st et in
  attempted_covers_successful s0 /\
  forall count, (count <= total_simplices_this_pass)%nat ->
    exists s' t,
      operator_call_upto count universe_ptr choice_raw trialval s0 = Some (tt, s', t) /\
      attempted_covers_successful s'.
Proof.
  intros Hexec HPREC universe Alpha K Lambda passes out st et universe_ptr raw trial s0.
  pose proof (ctor_counters_within ext universe Alpha K Lambda passes out st et) as Hc0.
  fold s0 in Hc0.
  split; [apply (counters_within_covers ext 0); assumption|].
  intros count Hcount.
  destruct (operator_call_upto_run Hexec HPREC raw trial count universe_ptr 0 s0 Hc0)
    as (s' & t & Hrun & Hc & _).
  - rewrite modulus_value. unfold total_simplices_this_pass in Hcount. lia.
  - exists s', t. split; [assumption|].
    apply (counters_within_covers ext _ s' Hc).
Qed.

(** The counters after the whole loop of a concrete run. *)
Lemma run_attempted_covers_successful_witness :
  executor_counts_once (ext := demo_ext) /\
  1 <= @PRECISION demo_ext /\
  attempted_covers_successful (demo_fresh 1) /\
  exists s' t,
    operator_call_upto (ext := demo_ext) 10 0%nat (fun i => Z.of_nat i)
      (fun _ => (1 # 4)%Q) (demo_fresh 1) = Some (tt, s', t) /\
    attempted_covers_successful s'.
Proof.
  assert (H1 : 1 <= @PRECISION demo_ext) by (cbn; lia).
  split; [exact demo_executor_counts_once|]. split; [exact H1|].
  destruct (run_attempted_covers_successful demo_ext demo_executor_counts_once H1
              0%nat 1%Q 1%Q 1%Q 1 1 ([], [], []) ([], 0)
              0%nat (fun i => Z.of_nat i) (fun _ => (1 # 4)%Q)) as [H0 Hrun].
  split; [exact H0|].
  exact (Hrun 10%nat (le_n 10)).
Defined.

(** C10.  In any invocation of [operator()], on an object fresh or left
    by earlier calls (counters ordered and far from overflow), no (6,2)
    and no (4,4) move is proposed or executed, and the attempted and
    successful counters of both kinds are, after seeding and after every
    iteration of the loop, the last included, what they were at the
    call: 0 when they were 0. *)
Theorem run_never_SixTwo_FourFour (ext : External) :
  executor_counts_once -> 1 <= PRECISION ->
  forall (n : Z) (s : Metropolis) (universe_ptr : Universe)
         (choice_raw : nat -> Z) (trial_double : nat -> Q) (count : nat),
  counters_within n s ->
  5 * (n + 11) < UIntMax.modulus ->
  (count <= total_simplices_this_pass)%nat ->
  exists s' t,
    operator_call_upto count universe_ptr choice_raw trial_double s = Some (tt, s', t) /\
    forallb event_of_seeded_kind t = true /\
    get SIX_TWO (attempted_moves_ s') = get SIX_TWO (attempted_moves_ s) /\
    get SIX_TWO (successful_moves_ s') = get SIX_TWO (successful_moves_ s) /\
    get FOUR_FOUR (attempted_moves_ s') = get FOUR_FOUR (attempted_moves_ s) /\
    get FOUR_FOUR (successful_moves_ s') = get FOUR_FOUR (successful_moves_ s).
Proof.
  intros Hexec HPREC n s universe_ptr raw trial count Hc Hn Hcount.
  destruct (operator_call_upto_run Hexec HPREC raw trial count universe_ptr n s Hc)
    as (s' & t & Hrun & _ & _ & Hfr & _ & _ & Hall).
  - unfold total_simplices_this_pass in Hcount. lia.
  - exists s', t. split; [assumption|]. split; [assumption|].
    destruct (Hfr SIX_TWO eq_refl) as [-> ->].
    destruct (Hfr FOUR_FOUR eq_refl) as [-> ->].
    repeat split.
Qed.

(** The whole loop of a second invocation, on an object that a first run
    left with attempted counters (5, 4, 4, 0, 0). *)
Lemma run_never_SixTwo_FourFour_witness :
  let s := demo_state (mk_move_tuple 5 4 4 0 0) (mk_move_tuple 3 2 2 0 0) in
  executor_counts_once (ext := demo_ext) /\
  1 <= @PRECISION demo_ext /\
  counters_within 5 s /\
  5 * (5 + 11) < UIntMax.modulus /\
  (10 <= total_simplices_this_pass)%nat /\
  exists s' t,
    operator_call_upto (ext := demo_ext) 10 0%nat (fun i => Z.of_nat i)
      (fun _ => (1 # 4)%Q) s = Some (tt, s', t) /\
    forallb event_of_seeded_kind t = true /\
    get SIX_TWO (attempted_moves_ s') = 0 /\
    get SIX_TWO (successful_moves_ s') = 0 /\
    get FOUR_FOUR (attempted_moves_ s') = 0 /\
    get FOUR_FOUR (successful_moves_ s') = 0.
Proof.
  intros s.
  assert (H1 : 1 <= @PRECISION demo_ext) by (cbn; lia).
  assert (Hc : counters_within 5 s) by (intros k; destruct k; cbn; lia).
  assert (Hn : 5 * (5 + 11) < UIntMax.modulus) by reflexivity.
  split; [exact demo_executor_counts_once|]. split; [exact H1|].
  split; [exact Hc|]. split; [exact Hn|]. split; [exact (le_n 10)|].
  exact (run_never_SixTwo_FourFour demo_ext demo_executor_counts_once H1
           5 s 0%nat (fun i => Z.of_nat i) (fun _ => (1 # 4)%Q) 10%nat Hc Hn (le_n 10)).
Defined.

(** ** [CalculateA1] *)

Local Open Scope Q_scope.

(** In the range of the normal doubles the conversion is a rounding to
    53 bits. *)
Lemma mpfr_get_d_RNDD_normal (x : Q) :
  2 ^ (-1022) <= x -> x < 2 ^ 1024 -> mpfr_get_d_RNDD x = round_down 53 x.
Proof.
  intros Hlo Hhi. unfold mpfr_get_d_RNDD.
  destruct (Qle_bool (2 ^ 1024) x) eqn:Hb.
  - apply Qle_bool_iff in Hb. exfalso. apply (Qlt_irrefl x).
    apply Qlt_le_trans with (2 ^ 1024); assumption.
  - destruct (Qlt_le_dec (Qabs x) (2 ^ (-1022))) as [Hs | Hs]; [|reflexivity].
    exfalso. rewrite Qabs_pos in Hs.
    + apply (Qlt_irrefl x). apply Qlt_le_trans with (2 ^ (-1022)); assumption.
    + apply Qle_trans with (2 ^ (-1022)); [|assumption].
      apply Qlt_le_weak, two_pow_pos.
Qed.

Lemma mpfr_get_d_RNDD_zero (x : Q) : x == 0 -> mpfr_get_d_RNDD x == 0.
Proof.
  intros Hx. unfold mpfr_get_d_RNDD.
  destruct (Qle_bool (2 ^ 1024) x) eqn:Hb.
  - apply Qle_bool_iff in Hb. rewrite Hx in Hb. exfalso.
    apply (Qlt_irrefl 0). apply Qlt_le_trans with (2 ^ 1024);
      [apply two_pow_pos | assumption].
  - destruct (Qlt_le_dec (Qabs x) (2 ^ (-1022))) as [Hs | Hs].
    + rewrite Hx. reflexivity.
    + rewrite Hx. reflexivity.
Qed.

(** A positive quotient of two 64-bit counters, rounded down to at least
    one bit, is in the range of the normal doubles. *)
Lemma rounded_quotient_normal (p n t : Z) :
  (1 <= p)%Z -> (0 < n < 2 ^ 64)%Z -> (0 < t < 2 ^ 64)%Z ->
  let y := round_down p (inject_Z n / inject_Z t) in
  2 ^ (-1022) <= y /\ y < 2 ^ 1024.
Proof.
  intros Hp [Hn0 Hn1] [Ht0 Ht1] y.
  assert (Hnq : 1 <= inject_Z n) by (rewrite <- (Zle_Qle 1); lia).
  assert (Hnq' : inject_Z n < 2 ^ 64).
  { rewrite (two_pow_inject 64) by lia. rewrite <- Zlt_Qlt. assumption. }
  assert (Htq : 1 <= inject_Z t) by (rewrite <- (Zle_Qle 1); lia).
  assert (Htq' : inject_Z t < 2 ^ 64).
  { rewrite (two_pow_inject 64) by lia. rewrite <- Zlt_Qlt. assumption. }
  set (q := inject_Z n / inject_Z t) in *.
  assert (Hq0 : 2 ^ (-64) < q).
  { unfold q. apply Qlt_shift_div_l; [lra|].
    assert (H : 2 ^ (-64) * 2 ^ 64 == 1) by reflexivity.
    pose proof (two_pow_pos (-64)) as Hpos. nra. }
  assert (Hq1 : q < 2 ^ 64).
  { unfold q. apply Qlt_shift_div_r; [lra|]. pose proof (two_pow_pos 64). nra. }
  assert (Hqpos : 0 < q) by (pose proof (two_pow_pos (-64)); lra).
  pose proof (round_down_ge_pow p q Hp Hqpos) as Hge.
  pose proof (round_down_le p q Hqpos) as Hle.
  destruct (Qilog2_spec q Hqpos) as [_ Hhi].
  assert (HE : (-64 <= Qilog2 q)%Z).
  { apply two_pow_lt_succ_inv. apply Qlt_trans with q; assumption. }
  split.
  - apply Qle_trans with (2 ^ Qilog2 q); [|exact Hge].
    apply two_pow_le. lia.
  - apply Qle_lt_trans with q; [exact Hle|].
    apply Qlt_le_trans with (2 ^ 64); [assumption|].
    apply two_pow_le. lia.
Qed.

Local Open Scope Z_scope.

Lemma int_of_uintmax_small (z : Z) : 0 <= z < 2 ^ 31 -> int_of_uintmax z = z.
Proof.
  intros H. unfold int_of_uintmax.
  rewrite Z.mod_small by lia.
  destruct (z <? 2 ^ 31) eqn:Hb; [reflexivity|].
  apply Z.ltb_ge in Hb. lia.
Qed.

Lemma ulong_of_small (z : Z) : 0 <= z < 2 ^ 64 -> ulong_of z = z.
Proof. intros H. unfold ulong_of. now apply Z.mod_small. Qed.

Lemma CalculateA1_this_move (ext : External) (move : move_type) (s : Metropolis) :
  CalculateA1 move s =
  match mpfr_div_RNDD PRECISION
          (mpfr_set_ui_RNDD PRECISION (int_of_uintmax (get move (attempted_moves_ s))))
          (mpfr_set_ui_RNDD PRECISION (TotalMoves s)) with
  | Some a1 => Some (mpfr_get_d_RNDD a1, s, [])
  | None => None
  end.
Proof.
  unfold CalculateA1, bind, read, read_opt, ret.
  destruct move; cbn [get];
    match goal with
    | |- context [mpfr_div_RNDD ?p ?a ?b] => destruct (mpfr_div_RNDD p a b)
    end; reflexivity.
Qed.

Lemma TotalMoves_no_wrap (ext : External) (s : Metropolis) :
  (forall k, 0 <= get k (attempted_moves_ s)) ->
  sum_attempted s < 2 ^ 64 ->
  TotalMoves s = sum_attempted s.
Proof.
  intros Hpos Hsum.
  pose proof (Hpos TWO_THREE) as H0. pose proof (Hpos THREE_TWO) as H1.
  pose proof (Hpos TWO_SIX) as H2. pose proof (Hpos SIX_TWO) as H3.
  pose proof (Hpos FOUR_FOUR) as H4. cbn [get] in *.
  unfold sum_attempted in *.
  unfold TotalMoves, UIntMax.add, UIntMax.wrap, UIntMax.modulus, UIntMax.width.
  set (a := get0 (attempted_moves_ s)) in *.
  set (b := get1 (attempted_moves_ s)) in *.
  set (c := get2 (attempted_moves_ s)) in *.
  set (d := get3 (attempted_moves_ s)) in *.
  set (e := get4 (attempted_moves_ s)) in *.
  rewrite (Z.mod_small (a + b)) by lia.
  rewrite (Z.mod_small (a + b + c)) by lia.
  rewrite (Z.mod_small (a + b + c + d)) by lia.
  apply Z.mod_small. lia.
Qed.

(** C6 (as amended).  With a precision of at least 64 bits, counters that
    have not wrapped and an attempted counter of the kind below [2^31],
    [CalculateA1] returns the quotient attempted[kind] / totalAttempted
    rounded toward minus infinity to a double (53 significant bits): the
    result never exceeds the quotient and falls short of it by at most
    [2^-52] times the result. *)
Theorem CalculateA1_rounded_quotient
    (ext : External) (move : move_type) (s : Metropolis) :
  64 <= PRECISION ->
  (forall k, 0 <= get k (attempted_moves_ s)) ->
  0 < sum_attempted s < 2 ^ 64 ->
  get move (attempted_moves_ s) < 2 ^ 31 ->
  exists r,
    CalculateA1 move s = Some (r, s, []) /\
    let q := (inject_Z (get move (attempted_moves_ s)) /
              inject_Z (sum_attempted s))%Q in
    (r == round_down 53 q /\ r <= q /\ q - r <= r * 2 ^ (-52))%Q.
Proof.
  intros HP Hpos [Hs0 Hs1] Hint.
  rewrite CalculateA1_this_move.
  rewrite (TotalMoves_no_wrap ext s Hpos Hs1).
  set (n := get move (attempted_moves_ s)) in *.
  set (T := sum_attempted s) in *.
  assert (Hn0 : 0 <= n) by apply Hpos.
  assert (H64 : 2 ^ 64 <= 2 ^ PRECISION) by (apply Z.pow_le_mono_r; lia).
  unfold mpfr_set_ui_RNDD.
  rewrite (int_of_uintmax_small n) by lia.
  rewrite (ulong_of_small n), (ulong_of_small T) by lia.
  assert (Hr1 : (round_down PRECISION (inject_Z n) == inject_Z n)%Q)
    by (apply round_down_Z; lia).
  assert (Hr2 : (round_down PRECISION (inject_Z T) == inject_Z T)%Q)
    by (apply round_down_Z; lia).
  assert (HTq : (0 < inject_Z T)%Q) by (rewrite <- (Zlt_Qlt 0); assumption).
  unfold mpfr_div_RNDD.
  destruct (Qeq_bool (round_down PRECISION (inject_Z T)) 0) eqn:Hz.
  { apply Qeq_bool_iff in Hz. rewrite Hr2 in Hz. rewrite Hz in HTq.
    discriminate HTq. }
  eexists. split; [reflexivity|]. cbv zeta.
  set (q := (inject_Z n / inject_Z T)%Q).
  set (a1 := round_down PRECISION
               (round_down PRECISION (inject_Z n) / round_down PRECISION (inject_Z T))%Q).
  assert (Ha1 : (a1 == round_down PRECISION q)%Q).
  { unfold a1, q. rewrite Hr1, Hr2. reflexivity. }
  destruct (Z.eq_dec n 0) as [Hnz | Hnz].
  - assert (Hq : (q == 0)%Q).
    { unfold q. rewrite Hnz. unfold Qdiv. apply Qmult_0_l. }
    assert (Hres : (mpfr_get_d_RNDD a1 == 0)%Q).
    { apply mpfr_get_d_RNDD_zero. rewrite Ha1. apply round_down_zero. exact Hq. }
    rewrite Hres, Hq. repeat split; try reflexivity; try discriminate.
  - assert (Hnpos : 0 < n) by lia.
    assert (Hqpos : (0 < q)%Q).
    { unfold q. apply Qlt_shift_div_l; [assumption|].
      rewrite Qmult_0_l. rewrite <- (Zlt_Qlt 0). assumption. }
    destruct (rounded_quotient_normal PRECISION n T) as [Hlo Hhi]; try lia.
    fold q in Hlo, Hhi. rewrite <- Ha1 in Hlo, Hhi.
    rewrite (mpfr_get_d_RNDD_normal a1 Hlo Hhi).
    assert (Hres : (round_down 53 a1 == round_down 53 q)%Q).
    { rewrite Ha1. apply round_down_twice; [lia | assumption]. }
    rewrite Hres.
    split; [reflexivity|].
    split; [apply round_down_le; assumption|].
    apply (round_down_rel 53 q); [lia | assumption].
Qed.

(** One fifth, on the concrete collaborators (256 bits of precision). *)
Lemma CalculateA1_rounded_quotient_witness :
  let s := demo_state (mk_move_tuple 1 1 1 1 1) (mk_move_tuple 1 1 1 0 0) in
  64 <= @PRECISION demo_ext /\
  (forall k, 0 <= get k (attempted_moves_ s)) /\
  0 < sum_attempted s < 2 ^ 64 /\
  get TWO_THREE (attempted_moves_ s) < 2 ^ 31 /\
  exists r,
    CalculateA1 TWO_THREE s = Some (r, s, []) /\
    let q := (inject_Z (get TWO_THREE (attempted_moves_ s)) /
              inject_Z (sum_attempted s))%Q in
    (r == round_down 53 q /\ r <= q /\ q - r <= r * 2 ^ (-52))%Q.
Proof.
  intros s.
  assert (HP : 64 <= @PRECISION demo_ext) by (cbn; lia).
  assert (Hpos : forall k, 0 <= get k (attempted_moves_ s))
    by (intros k; destruct k; cbn; lia).
  assert (Hsum : 0 < sum_attempted s < 2 ^ 64) by (cbn; lia).
  assert (Hint : get TWO_THREE (attempted_moves_ s) < 2 ^ 31) by (cbn; lia).
  split; [exact HP|]. split; [exact Hpos|]. split; [exact Hsum|].
  split; [exact Hint|].
  exact (CalculateA1_rounded_quotient demo_ext TWO_THREE s HP Hpos Hsum Hint).
Defined.

(** C6 (counterexample).  [CalculateA1] does not return the exact
    quotient: with every kind attempted once it returns the double just
    below 1/5, not 1/5. *)
Lemma CalculateA1_not_the_exact_quotient :
  ~ (forall (s : @Metropolis demo_ext) (move : move_type),
       0 < TotalMoves s ->
       (forall k, 0 < get k (attempted_moves_ s)) ->
       exists r,
         value_of (CalculateA1 move) s = Some r /\
         (r == inject_Z (get move (attempted_moves_ s)) / inject_Z (TotalMoves s))%Q).
Proof.
  intros H.
  set (s := demo_state (mk_move_tuple 1 1 1 1 1) (mk_move_tuple 1 1 1 0 0)).
  destruct (H s TWO_THREE) as (r & Hr & Heq).
  - reflexivity.
  - intros k; destruct k; reflexivity.
  - assert (Hv : match value_of (CalculateA1 TWO_THREE) s with
                 | Some v => Qeq_bool v (1 # 5) = false
                 | None => False
                 end) by (vm_compute; reflexivity).
    rewrite Hr in Hv. apply Qeq_bool_neq in Hv. apply Hv.
    rewrite Heq. reflexivity.
Qed.

(** The value returned in the seeded state: the double below 1/3. *)
Example CalculateA1_seeded_state :
  value_of (CalculateA1 (ext := demo_ext) THREE_TWO)
    (demo_state (mk_move_tuple 1 1 1 0 0) (mk_move_tuple 1 1 1 0 0))
  = Some (6004799503160661 # 18014398509481984)%Q.
Proof. vm_compute. reflexivity. Qed.

(** A ratio that a double holds is returned as it is. *)
Example CalculateA1_quarter :
  match value_of (CalculateA1 (ext := demo_ext) SIX_TWO)
          (demo_state (mk_move_tuple 1 1 1 1 0) (mk_move_tuple 1 1 1 0 0)) with
  | Some v => (v == 1 # 4)%Q
  | None => False
  end.
Proof. vm_compute. reflexivity. Qed.

(** Roundings on small precisions. *)
Example round_down_third : (round_down 4 (1 # 3) == 10 # 32)%Q.
Proof. vm_compute. reflexivity. Qed.

Example round_down_neg_third : (round_down 4 (- 1 # 3) == - 11 # 32)%Q.
Proof. vm_compute. reflexivity. Qed.

Example round_down_kept : (round_down 4 (3 # 8) == 3 # 8)%Q.
Proof. vm_compute. reflexivity. Qed.

Example get_d_third :
  (mpfr_get_d_RNDD (1 # 3) == 6004799503160661 # 18014398509481984)%Q.
Proof. vm_compute. reflexivity. Qed.

(** * Further properties *)

(** ** Rounding down, continued *)

Local Open Scope Q_scope.

Lemma round_down_nonneg_le (p : Z) (x : Q) :
  (1 <= p)%Z -> 0 <= x -> 0 <= round_down p x /\ round_down p x <= x.
Proof.
  intros Hp Hx.
  destruct (Qeq_dec x 0) as [Hz | Hz].
  - rewrite (round_down_zero p x Hz), Hz. split; apply Qle_refl.
  - assert (Hpos : 0 < x).
    { apply Qnot_le_lt. intros Hle. apply Hz. apply Qle_antisym; assumption. }
    split; [apply Qlt_le_weak, round_down_pos; assumption|].
    apply round_down_le. assumption.
Qed.

Lemma Qilog2_mono (x y : Q) : 0 < x -> x <= y -> (Qilog2 x <= Qilog2 y)%Z.
Proof.
  intros Hx Hxy.
  assert (Hy : 0 < y) by (apply Qlt_le_trans with x; assumption).
  destruct (Qilog2_spec x Hx) as [Hlo _].
  destruct (Qilog2_spec y Hy) as [_ Hhi].
  apply two_pow_lt_succ_inv.
  apply Qle_lt_trans with x; [assumption|].
  apply Qle_lt_trans with y; assumption.
Qed.

(** Rounding down keeps the order of non-negative numbers. *)
Lemma round_down_mono (p : Z) (x y : Q) :
  (1 <= p)%Z -> 0 <= x -> x <= y -> round_down p x <= round_down p y.
Proof.
  intros Hp Hx Hxy.
  assert (Hy0 : 0 <= y) by (apply Qle_trans with x; assumption).
  destruct (Qeq_dec x 0) as [Hz | Hz].
  { rewrite (round_down_zero p x Hz). apply (round_down_nonneg_le p y Hp Hy0). }
  assert (Hxpos : 0 < x).
  { apply Qnot_le_lt. intros Hle. apply Hz. apply Qle_antisym; assumption. }
  assert (Hypos : 0 < y) by (apply Qlt_le_trans with x; assumption).
  pose proof (Qilog2_mono x y Hxpos Hxy) as HE.
  destruct (Z.eq_dec (Qilog2 x) (Qilog2 y)) as [Heq | Hne].
  - rewrite (round_down_pos_eq p x Hxpos), (round_down_pos_eq p y Hypos), Heq.
    apply Qmult_le_r; [apply two_pow_pos|].
    rewrite <- Zle_Qle. apply Qfloor_resp_le.
    apply Qmult_le_r; [apply Qinv_lt_0_compat, two_pow_pos | assumption].
  - apply Qle_trans with x; [apply round_down_le; assumption|].
    apply Qle_trans with (2 ^ Qilog2 y); [|apply round_down_ge_pow; assumption].
    destruct (Qilog2_spec x Hxpos) as [_ Hhi].
    apply Qle_trans with (2 ^ (Qilog2 x + 1)); [apply Qlt_le_weak; assumption|].
    apply two_pow_le. lia.
Qed.

Local Open Scope Z_scope.

(** ** [TotalMoves] and [CalculateA1], continued *)

(** [TotalMoves ()] is the sum of the five attempted counters reduced
    modulo [2^64], whatever the counters hold. *)
Theorem TotalMoves_sum_mod (ext : External) (s : Metropolis) :
  TotalMoves s = sum_attempted s mod 2 ^ 64.
Proof.
  unfold TotalMoves, sum_attempted, UIntMax.add, UIntMax.wrap,
    UIntMax.modulus, UIntMax.width.
  set (a := get0 (attempted_moves_ s)). set (b := get1 (attempted_moves_ s)).
  set (c := get2 (attempted_moves_ s)). set (d := get3 (attempted_moves_ s)).
  set (e := get4 (attempted_moves_ s)).
  rewrite (Z.add_mod_idemp_l (a + b) c) by discriminate.
  rewrite (Z.add_mod_idemp_l (a + b + c) d) by discriminate.
  rewrite (Z.add_mod_idemp_l (a + b + c + d) e) by discriminate.
  reflexivity.
Qed.

(** [CalculateA1] has a value exactly when some move has been counted:
    with [TotalMoves () = 0] the division is by zero. *)
Theorem CalculateA1_undefined_iff (ext : External) (move : move_type) (s : Metropolis) :
  1 <= PRECISION ->
  (CalculateA1 move s = None <-> TotalMoves s = 0).
Proof.
  intros HP. split.
  - intros Hnone.
    destruct (Z.eq_dec (TotalMoves s) 0) as [Hz | Hnz]; [assumption|].
    exfalso.
    assert (Hpos : 0 < TotalMoves s).
    { pose proof (TotalMoves_range s) as Hr. unfold UIntMax.in_range in Hr. lia. }
    destruct (CalculateA1_defined HP move s Hpos) as [v Hv].
    rewrite Hv in Hnone. discriminate Hnone.
  - intros Hz. rewrite CalculateA1_this_move, Hz. reflexivity.
Qed.

Lemma CalculateA1_undefined_iff_witness :
  let s := demo_state zero_tuple zero_tuple in
  1 <= @PRECISION demo_ext /\
  (CalculateA1 TWO_SIX s = None <-> TotalMoves s = 0).
Proof.
  intros s.
  assert (HP : 1 <= @PRECISION demo_ext) by (cbn; lia).
  split; [exact HP|].
  exact (CalculateA1_undefined_iff demo_ext TWO_SIX s HP).
Defined.

(** On a freshly constructed object [attempt_move] of any kind divides
    by zero: no move has been counted before [operator()] seeds the
    counters. *)
Theorem attempt_move_fresh_undefined (ext : External)
    (universe : Universe) (Alpha K Lambda : Long_double)
    (passes output_every_n_passes : Z) (st : Simplex_types) (et : Edge_types)
    (move : move_type) (trialval : Q) :
  attempt_move move trialval
    (Metropolis_ctor universe Alpha K Lambda passes output_every_n_passes st et)
  = None.
Proof.
  apply attempt_move_undecided. unfold decision, value_of.
  rewrite CalculateA1_this_move. reflexivity.
Qed.

(** The value of [CalculateA1] while the counters are far from their
    limits: the quotient rounded down to 53 bits. *)
Lemma CalculateA1_value_rounded (ext : External) (move : move_type) (s : Metropolis) :
  64 <= PRECISION ->
  (forall k, 0 <= get k (attempted_moves_ s)) ->
  0 < sum_attempted s < 2 ^ 64 ->
  get move (attempted_moves_ s) < 2 ^ 31 ->
  exists r,
    CalculateA1 move s = Some (r, s, []) /\
    (r == round_down 53 (inject_Z (get move (attempted_moves_ s)) /
                         inject_Z (sum_attempted s)))%Q.
Proof.
  intros HP Hpos [Hs0 Hs1] Hint.
  rewrite CalculateA1_this_move, (TotalMoves_no_wrap ext s Hpos Hs1).
  set (n := get move (attempted_moves_ s)) in *.
  set (T := sum_attempted s) in *.
  assert (Hn0 : 0 <= n) by apply Hpos.
  assert (H64 : 2 ^ 64 <= 2 ^ PRECISION) by (apply Z.pow_le_mono_r; lia).
  unfold mpfr_set_ui_RNDD.
  rewrite (int_of_uintmax_small n) by lia.
  rewrite (ulong_of_small n), (ulong_of_small T) by lia.
  assert (Hr1 : (round_down PRECISION (inject_Z n) == inject_Z n)%Q)
    by (apply round_down_Z; lia).
  assert (Hr2 : (round_down PRECISION (inject_Z T) == inject_Z T)%Q)
    by (apply round_down_Z; lia).
  assert (HTq : (0 < inject_Z T)%Q) by (rewrite <- (Zlt_Qlt 0); assumption).
  unfold mpfr_div_RNDD.
  destruct (Qeq_bool (round_down PRECISION (inject_Z T)) 0) eqn:Hz.
  { apply Qeq_bool_iff in Hz. rewrite Hr2 in Hz. rewrite Hz in HTq.
    discriminate HTq. }
  eexists. split; [reflexivity|].
  set (q := (inject_Z n / inject_Z T)%Q).
  set (a1 := round_down PRECISION
               (round_down PRECISION (inject_Z n) / round_down PRECISION (inject_Z T))%Q).
  assert (Ha1 : (a1 == round_down PRECISION q)%Q)
    by (unfold a1, q; rewrite Hr1, Hr2; reflexivity).
  destruct (Z.eq_dec n 0) as [Hnz | Hnz].
  - assert (Hq : (q == 0)%Q) by (unfold q; rewrite Hnz; apply Qmult_0_l).
    rewrite (round_down_zero 53 q Hq).
    apply mpfr_get_d_RNDD_zero. rewrite Ha1. apply round_down_zero. exact Hq.
  - assert (Hqpos : (0 < q)%Q).
    { unfold q. apply Qlt_shift_div_l; [assumption|].
      rewrite Qmult_0_l. rewrite <- (Zlt_Qlt 0). lia. }
    destruct (rounded_quotient_normal PRECISION n T) as [Hlo Hhi]; try lia.
    fold q in Hlo, Hhi. rewrite <- Ha1 in Hlo, Hhi.
    rewrite (mpfr_get_d_RNDD_normal a1 Hlo Hhi), Ha1.
    apply round_down_twice; [lia | assumption].
Qed.

(** The quotient of a counter by the sum of the counters is in [0, 1]. *)
Lemma attempted_quotient_range (ext : External) (move : move_type) (s : Metropolis) :
  (forall k, 0 <= get k (attempted_moves_ s)) ->
  0 < sum_attempted s ->
  (0 <= inject_Z (get move (attempted_moves_ s)) / inject_Z (sum_attempted s) <= 1)%Q.
Proof.
  intros Hpos Hs.
  assert (Hle : get move (attempted_moves_ s) <= sum_attempted s).
  { pose proof (Hpos TWO_THREE). pose proof (Hpos THREE_TWO).
    pose proof (Hpos TWO_SIX). pose proof (Hpos SIX_TWO).
    pose proof (Hpos FOUR_FOUR). unfold sum_attempted.
    destruct move; cbn [get] in *; lia. }
  assert (HT : (0 < inject_Z (sum_attempted s))%Q) by (rewrite <- (Zlt_Qlt 0); assumption).
  split.
  - apply Qle_shift_div_l; [assumption|]. rewrite Qmult_0_l.
    rewrite <- (Zle_Qle 0). apply Hpos.
  - apply Qle_shift_div_r; [assumption|]. rewrite Qmult_1_l.
    rewrite <- Zle_Qle. assumption.
Qed.

(** [CalculateA1] returns a number of [0, 1] while the counters are far
    from their limits. *)
Theorem CalculateA1_in_unit_interval (ext : External) (move : move_type) (s : Metropolis) :
  64 <= PRECISION ->
  (forall k, 0 <= get k (attempted_moves_ s)) ->
  0 < sum_attempted s < 2 ^ 64 ->
  get move (attempted_moves_ s) < 2 ^ 31 ->
  exists r, CalculateA1 move s = Some (r, s, []) /\ (0 <= r <= 1)%Q.
Proof.
  intros HP Hpos Hsum Hint.
  destruct (CalculateA1_value_rounded ext move s HP Hpos Hsum Hint) as (r & Hrun & Hr).
  exists r. split; [assumption|].
  destruct (attempted_quotient_range ext move s Hpos (proj1 Hsum)) as [Hq0 Hq1].
  destruct (round_down_nonneg_le 53 _ ltac:(lia) Hq0) as [H0 H1].
  rewrite Hr. split; [assumption|].
  eapply Qle_trans; [exact H1 | exact Hq1].
Qed.

Lemma CalculateA1_in_unit_interval_witness :
  let s := demo_state (mk_move_tuple 3 2 1 0 1) (mk_move_tuple 1 1 1 0 0) in
  64 <= @PRECISION demo_ext /\
  (forall k, 0 <= get k (attempted_moves_ s)) /\
  0 < sum_attempted s < 2 ^ 64 /\
  get TWO_THREE (attempted_moves_ s) < 2 ^ 31 /\
  exists r, CalculateA1 TWO_THREE s = Some (r, s, []) /\ (0 <= r <= 1)%Q.
Proof.
  intros s.
  assert (HP : 64 <= @PRECISION demo_ext) by (cbn; lia).
  assert (Hpos : forall k, 0 <= get k (attempted_moves_ s))
    by (intros k; destruct k; cbn; lia).
  assert (Hsum : 0 < sum_attempted s < 2 ^ 64) by (cbn; lia).
  assert (Hint : get TWO_THREE (attempted_moves_ s) < 2 ^ 31) by (cbn; lia).
  split; [exact HP|]. split; [exact Hpos|]. split; [exact Hsum|].
  split; [exact Hint|].
  exact (CalculateA1_in_unit_interval demo_ext TWO_THREE s HP Hpos Hsum Hint).
Defined.

(** The five ratios of a state add up to at most 1: each is rounded
    down from a share of the total. *)
Theorem CalculateA1_sum_at_most_one (ext : External) (s : Metropolis) :
  64 <= PRECISION ->
  (forall k, 0 <= get k (attempted_moves_ s) < 2 ^ 31) ->
  0 < sum_attempted s ->
  exists r0 r1 r2 r3 r4,
    value_of (CalculateA1 TWO_THREE) s = Some r0 /\
    value_of (CalculateA1 THREE_TWO) s = Some r1 /\
    value_of (CalculateA1 TWO_SIX) s = Some r2 /\
    value_of (CalculateA1 SIX_TWO) s = Some r3 /\
    value_of (CalculateA1 FOUR_FOUR) s = Some r4 /\
    (r0 + r1 + r2 + r3 + r4 <= 1)%Q.
Proof.
  intros HP Hk Hs0.
  assert (Hpos : forall k, 0 <= get k (attempted_moves_ s)) by (intros k; apply Hk).
  assert (Hsum : 0 < sum_attempted s < 2 ^ 64).
  { split; [assumption|].
    pose proof (Hk TWO_THREE). pose proof (Hk THREE_TWO). pose proof (Hk TWO_SIX).
    pose proof (Hk SIX_TWO). pose proof (Hk FOUR_FOUR).
    unfold sum_attempted. cbn [get] in *. lia. }
  assert (Hone : forall k, exists r,
             value_of (CalculateA1 k) s = Some r /\
             (r <= inject_Z (get k (attempted_moves_ s)) / inject_Z (sum_attempted s))%Q).
  { intros k.
    destruct (CalculateA1_value_rounded ext k s HP Hpos Hsum (proj2 (Hk k)))
      as (r & Hrun & Hr).
    exists r. unfold value_of. rewrite Hrun. split; [reflexivity|].
    rewrite Hr.
    apply (round_down_nonneg_le 53); [lia|].
    apply (attempted_quotient_range ext k s Hpos Hs0). }
  destruct (Hone TWO_THREE) as (r0 & H0 & L0).
  destruct (Hone THREE_TWO) as (r1 & H1 & L1).
  destruct (Hone TWO_SIX) as (r2 & H2 & L2).
  destruct (Hone SIX_TWO) as (r3 & H3 & L3).
  destruct (Hone FOUR_FOUR) as (r4 & H4 & L4).
  exists r0, r1, r2, r3, r4. repeat (split; [assumption|]).
  cbn [get] in L0, L1, L2, L3, L4.
  assert (HT : (0 < inject_Z (sum_attempted s))%Q) by (rewrite <- (Zlt_Qlt 0); assumption).
  assert (Hq : (inject_Z (get0 (attempted_moves_ s)) / inject_Z (sum_attempted s) +
                inject_Z (get1 (attempted_moves_ s)) / inject_Z (sum_attempted s) +
                inject_Z (get2 (attempted_moves_ s)) / inject_Z (sum_attempted s) +
                inject_Z (get3 (attempted_moves_ s)) / inject_Z (sum_attempted s) +
                inject_Z (get4 (attempted_moves_ s)) / inject_Z (sum_attempted s) == 1)%Q).
  { unfold sum_attempted at 1 2 3 4 5. rewrite !inject_Z_plus.
    unfold sum_attempted in HT. rewrite !inject_Z_plus in HT.
    field. lra. }
  lra.
Qed.

Lemma CalculateA1_sum_at_most_one_witness :
  let s := demo_state (mk_move_tuple 3 2 1 0 1) (mk_move_tuple 1 1 1 0 0) in
  64 <= @PRECISION demo_ext /\
  (forall k, 0 <= get k (attempted_moves_ s) < 2 ^ 31) /\
  0 < sum_attempted s /\
  exists r0 r1 r2 r3 r4,
    value_of (CalculateA1 TWO_THREE) s = Some r0 /\
    value_of (CalculateA1 THREE_TWO) s = Some r1 /\
    value_of (CalculateA1 TWO_SIX) s = Some r2 /\
    value_of (CalculateA1 SIX_TWO) s = Some r3 /\
    value_of (CalculateA1 FOUR_FOUR) s = Some r4 /\
    (r0 + r1 + r2 + r3 + r4 <= 1)%Q.
Proof.
  intros s.
  assert (HP : 64 <= @PRECISION demo_ext) by (cbn; lia).
  assert (Hk : forall k, 0 <= get k (attempted_moves_ s) < 2 ^ 31)
    by (intros k; destruct k; cbn; lia).
  assert (Hs0 : 0 < sum_attempted s) by (cbn; lia).
  split; [exact HP|]. split; [exact Hk|]. split; [exact Hs0|].
  exact (CalculateA1_sum_at_most_one demo_ext s HP Hk Hs0).
Defined.

(** When the quotient attempted[kind] / total is itself a number of at
    most 53 significant bits (one half, three quarters, ...),
    [CalculateA1] returns it exactly. *)
Theorem CalculateA1_exact_on_doubles (ext : External) (move : move_type)
    (s : Metropolis) (m f : Z) :
  64 <= PRECISION ->
  (forall k, 0 <= get k (attempted_moves_ s)) ->
  0 < sum_attempted s < 2 ^ 64 ->
  get move (attempted_moves_ s) < 2 ^ 31 ->
  0 < m < 2 ^ 53 ->
  (inject_Z (get move (attempted_moves_ s)) / inject_Z (sum_attempted s)
   == inject_Z m * 2 ^ f)%Q ->
  exists r,
    CalculateA1 move s = Some (r, s, []) /\
    (r == inject_Z (get move (attempted_moves_ s)) / inject_Z (sum_attempted s))%Q.
Proof.
  intros HP Hpos Hsum Hint Hm Hq.
  destruct (CalculateA1_value_rounded ext move s HP Hpos Hsum Hint) as (r & Hrun & Hr).
  exists r. split; [assumption|].
  rewrite Hr, Hq. apply round_down_exact; [lia | assumption].
Qed.

(** Three attempts out of four. *)
Lemma CalculateA1_exact_on_doubles_witness :
  let s := demo_state (mk_move_tuple 3 1 0 0 0) (mk_move_tuple 1 1 0 0 0) in
  64 <= @PRECISION demo_ext /\
  (forall k, 0 <= get k (attempted_moves_ s)) /\
  0 < sum_attempted s < 2 ^ 64 /\
  get TWO_THREE (attempted_moves_ s) < 2 ^ 31 /\
  0 < 3 < 2 ^ 53 /\
  (inject_Z (get TWO_THREE (attempted_moves_ s)) / inject_Z (sum_attempted s)
   == inject_Z 3 * 2 ^ (-2))%Q /\
  exists r,
    CalculateA1 TWO_THREE s = Some (r, s, []) /\
    (r == inject_Z (get TWO_THREE (attempted_moves_ s)) / inject_Z (sum_attempted s))%Q.
Proof.
  intros s.
  assert (HP : 64 <= @PRECISION demo_ext) by (cbn; lia).
  assert (Hpos : forall k, 0 <= get k (attempted_moves_ s))
    by (intros k; destruct k; cbn; lia).
  assert (Hsum : 0 < sum_attempted s < 2 ^ 64) by (cbn; lia).
  assert (Hint : get TWO_THREE (attempted_moves_ s) < 2 ^ 31) by (cbn; lia).
  assert (Hm : 0 < 3 < 2 ^ 53) by lia.
  assert (Hq : (inject_Z (get TWO_THREE (attempted_moves_ s)) / inject_Z (sum_attempted s)
                == inject_Z 3 * 2 ^ (-2))%Q) by reflexivity.
  split; [exact HP|]. split; [exact Hpos|]. split; [exact Hsum|].
  split; [exact Hint|]. split; [exact Hm|]. split; [exact Hq|].
  exact (CalculateA1_exact_on_doubles demo_ext TWO_THREE s 3 (-2) HP Hpos Hsum Hint Hm Hq).
Defined.

(** A kind attempted at least as often as another gets at least as
    large a ratio. *)
Theorem CalculateA1_monotone (ext : External) (k j : move_type) (s : Metropolis) :
  64 <= PRECISION ->
  (forall i, 0 <= get i (attempted_moves_ s)) ->
  0 < sum_attempted s < 2 ^ 64 ->
  get k (attempted_moves_ s) <= get j (attempted_moves_ s) ->
  get j (attempted_moves_ s) < 2 ^ 31 ->
  exists rk rj,
    value_of (CalculateA1 k) s = Some rk /\
    value_of (CalculateA1 j) s = Some rj /\
    (rk <= rj)%Q.
Proof.
  intros HP Hpos Hsum Hkj Hj.
  destruct (CalculateA1_value_rounded ext k s HP Hpos Hsum ltac:(lia)) as (rk & Hrk & Hk).
  destruct (CalculateA1_value_rounded ext j s HP Hpos Hsum Hj) as (rj & Hrj & Hj').
  exists rk, rj. unfold value_of. rewrite Hrk, Hrj.
  split; [reflexivity|]. split; [reflexivity|].
  rewrite Hk, Hj'.
  assert (HT : (0 < inject_Z (sum_attempted s))%Q)
    by (rewrite <- (Zlt_Qlt 0); apply Hsum).
  apply round_down_mono; [lia | |].
  - apply (attempted_quotient_range ext k s Hpos (proj1 Hsum)).
  - apply Qmult_le_r; [apply Qinv_lt_0_compat; assumption|].
    rewrite <- Zle_Qle. assumption.
Qed.

Lemma CalculateA1_monotone_witness :
  let s := demo_state (mk_move_tuple 3 2 1 0 1) (mk_move_tuple 1 1 1 0 0) in
  64 <= @PRECISION demo_ext /\
  (forall i, 0 <= get i (attempted_moves_ s)) /\
  0 < sum_attempted s < 2 ^ 64 /\
  get TWO_SIX (attempted_moves_ s) <= get TWO_THREE (attempted_moves_ s) /\
  get TWO_THREE (attempted_moves_ s) < 2 ^ 31 /\
  exists rk rj,
    value_of (CalculateA1 TWO_SIX) s = Some rk /\
    value_of (CalculateA1 TWO_THREE) s = Some rj /\
    (rk <= rj)%Q.
Proof.
  intros s.
  assert (HP : 64 <= @PRECISION demo_ext) by (cbn; lia).
  assert (Hpos : forall i, 0 <= get i (attempted_moves_ s))
    by (intros i; destruct i; cbn; lia).
  assert (Hsum : 0 < sum_attempted s < 2 ^ 64) by (cbn; lia).
  assert (Hkj : get TWO_SIX (attempted_moves_ s) <= get TWO_THREE (attempted_moves_ s))
    by (cbn; lia).
  assert (Hj : get TWO_THREE (attempted_moves_ s) < 2 ^ 31) by (cbn; lia).
  split; [exact HP|]. split; [exact Hpos|]. split; [exact Hsum|].
  split; [exact Hkj|]. split; [exact Hj|].
  exact (CalculateA1_monotone demo_ext TWO_SIX TWO_THREE s HP Hpos Hsum Hkj Hj).
Defined.

Lemma Qdiv_0_l (x : Q) : (0 / x == 0)%Q.
Proof. unfold Qdiv. apply Qmult_0_l. Qed.

Lemma ulong_of_0 : ulong_of 0 = 0.
Proof. reflexivity. Qed.

Lemma mpfr_set_ui_RNDD_0 (p : Z) : mpfr_set_ui_RNDD p 0 = 0%Q.
Proof. unfold mpfr_set_ui_RNDD. rewrite ulong_of_0. reflexivity. Qed.

Lemma int_of_uintmax_multiple (n : Z) : n mod 2 ^ 32 = 0 -> int_of_uintmax n = 0.
Proof. intros H. unfold int_of_uintmax. rewrite H. reflexivity. Qed.

Lemma mpfr_div_RNDD_some (p : Z) (a b : Q) :
  ~ (b == 0)%Q -> mpfr_div_RNDD p a b = Some (round_down p (a / b)).
Proof.
  intros Hb. unfold mpfr_div_RNDD.
  destruct (Qeq_bool b 0) eqn:E; [|reflexivity].
  apply Qeq_bool_iff in E. contradiction.
Qed.

Lemma total_rounded_nonzero (ext : External) (s : Metropolis) :
  1 <= PRECISION -> 0 < TotalMoves s ->
  ~ (mpfr_set_ui_RNDD PRECISION (TotalMoves s) == 0)%Q.
Proof.
  intros HP Htot Hz. unfold mpfr_set_ui_RNDD in Hz.
  rewrite ulong_of_small in Hz by (apply TotalMoves_range).
  assert (Hq : (0 < inject_Z (TotalMoves s))%Q) by (rewrite <- (Zlt_Qlt 0); assumption).
  pose proof (round_down_pos PRECISION _ HP Hq) as Hpos.
  rewrite Hz in Hpos. discriminate Hpos.
Qed.

Lemma CalculateA1_zero_value (ext : External) (move : move_type) (s : Metropolis) :
  1 <= PRECISION ->
  0 < TotalMoves s ->
  get move (attempted_moves_ s) mod 2 ^ 32 = 0 ->
  exists r, CalculateA1 move s = Some (r, s, []) /\ (r == 0)%Q.
Proof.
  intros HP Htot Hmod.
  rewrite CalculateA1_this_move, (int_of_uintmax_multiple _ Hmod), mpfr_set_ui_RNDD_0.
  rewrite (mpfr_div_RNDD_some _ _ _ (total_rounded_nonzero ext s HP Htot)).
  eexists. split; [reflexivity|].
  apply mpfr_get_d_RNDD_zero, round_down_zero, Qdiv_0_l.
Qed.

(** [this_move] is an [int]: when the attempted counter of the kind is a
    multiple of [2^32] (in particular at [2^32] attempts), the ratio
    returned is 0, whatever the share of the kind. *)
Theorem CalculateA1_zero_at_multiples_of_2_32 (ext : External) (move : move_type)
    (s : Metropolis) :
  1 <= PRECISION ->
  0 < TotalMoves s ->
  0 < get move (attempted_moves_ s) ->
  get move (attempted_moves_ s) mod 2 ^ 32 = 0 ->
  exists r, CalculateA1 move s = Some (r, s, []) /\ (r == 0)%Q.
Proof.
  intros HP Htot _ Hmod. apply CalculateA1_zero_value; assumption.
Qed.

(** [2^32] attempted (2,3) moves out of [2^32 + 2]. *)
Lemma CalculateA1_zero_at_multiples_of_2_32_witness :
  let s := demo_state (mk_move_tuple (2 ^ 32) 1 1 0 0) (mk_move_tuple 1 1 1 0 0) in
  1 <= @PRECISION demo_ext /\
  0 < TotalMoves s /\
  0 < get TWO_THREE (attempted_moves_ s) /\
  get TWO_THREE (attempted_moves_ s) mod 2 ^ 32 = 0 /\
  exists r, CalculateA1 TWO_THREE s = Some (r, s, []) /\ (r == 0)%Q.
Proof.
  intros s.
  assert (HP : 1 <= @PRECISION demo_ext) by (cbn; lia).
  assert (Htot : 0 < TotalMoves s) by reflexivity.
  assert (Hn : 0 < get TWO_THREE (attempted_moves_ s)) by reflexivity.
  assert (Hmod : get TWO_THREE (attempted_moves_ s) mod 2 ^ 32 = 0) by reflexivity.
  split; [exact HP|]. split; [exact Htot|]. split; [exact Hn|]. split; [exact Hmod|].
  exact (CalculateA1_zero_at_multiples_of_2_32 demo_ext TWO_THREE s HP Htot Hn Hmod).
Defined.

(** A kind with no counted attempt has ratio 0.  A proposal of that
    kind is therefore accepted exactly when the draw, as [attempt_move]
    compares it (converted to double), is [<= 0]; when that double is
    positive the proposal is rejected, and [attempt_move] returns with
    the attempted counter of the kind at 1 and everything else as it
    was. *)
Theorem never_attempted_kind_accepted_iff (ext : External) (move : move_type)
    (trial_double : Q) (s : Metropolis) :
  1 <= PRECISION ->
  0 < TotalMoves s ->
  get move (attempted_moves_ s) = 0 ->
  (accepted move trial_double s <-> (trial_double <= 0)%Q) /\
  (rejected move trial_double s <-> (0 < trial_double)%Q) /\
  ((0 < trial_double)%Q ->
   exists s' t,
     attempt_move move trial_double s = Some (tt, s', t) /\
     get move (attempted_moves_ s') = 1 /\
     (forall k, k <> move -> get k (attempted_moves_ s') = get k (attempted_moves_ s)) /\
     s' = set_attempted (attempted_moves_ s') s /\
     filter is_executor_call t = []).
Proof.
  intros HP Htot Hz.
  destruct (CalculateA1_zero_value ext move s HP Htot) as (a1 & Hrun & Ha1).
  { rewrite Hz. reflexivity. }
  destruct (CalculateA2_run move s) as [a2 Hrun2].
  assert (Hprod : (a1 * a2 == 0)%Q) by (rewrite Ha1; apply Qmult_0_l).
  assert (Hdec : decision move trial_double s = Some (Qle_bool trial_double (a1 * a2))).
  { unfold decision, value_of. rewrite Hrun, Hrun2. reflexivity. }
  assert (Hacc : accepted move trial_double s <-> (trial_double <= 0)%Q).
  { unfold accepted. rewrite Hdec. split.
    - intros H. injection H as Hb. apply Qle_bool_iff in Hb.
      rewrite Hprod in Hb. exact Hb.
    - intros H. apply f_equal. apply Qle_bool_iff. rewrite Hprod. exact H. }
  assert (Hrej : rejected move trial_double s <-> (0 < trial_double)%Q).
  { unfold rejected. rewrite Hdec. split.
    - intros H. injection H as Hb. apply Qnot_le_lt. intros Hle.
      assert (Ht : Qle_bool trial_double (a1 * a2) = true)
        by (apply Qle_bool_iff; rewrite Hprod; exact Hle).
      congruence.
    - intros H. apply f_equal.
      destruct (Qle_bool trial_double (a1 * a2)) eqn:Hb; [|reflexivity].
      apply Qle_bool_iff in Hb. rewrite Hprod in Hb.
      exfalso. apply (Qlt_irrefl 0). eapply Qlt_le_trans; eassumption. }
  split; [exact Hacc|]. split; [exact Hrej|].
  intros Hpos. apply Hrej in Hpos.
  rewrite (attempt_move_decided _ _ _ false Hpos), move_rejected_run.
  eexists; eexists. split; [reflexivity|].
  cbn [attempted_moves_ set_attempted].
  split; [rewrite get_incr_get_same, Hz; reflexivity|].
  split; [intros k Hk; now apply get_incr_get_other|].
  split; [reflexivity|].
  cbn [filter is_executor_call].
  rewrite filter_app, CalculateA2_no_executor. reflexivity.
Qed.

(** A (6,2) proposal in the seeded state, at the double 0.001. *)
Lemma never_attempted_kind_accepted_iff_witness :
  let s := demo_state (mk_move_tuple 1 1 1 0 0) (mk_move_tuple 1 1 1 0 0) in
  1 <= @PRECISION demo_ext /\
  0 < TotalMoves s /\
  get SIX_TWO (attempted_moves_ s) = 0 /\
  (0 < 1 # 1000)%Q /\
  rejected SIX_TWO (1 # 1000) s /\
  exists s' t,
    attempt_move SIX_TWO (1 # 1000) s = Some (tt, s', t) /\
    get SIX_TWO (attempted_moves_ s') = 1 /\
    (forall k, k <> SIX_TWO -> get k (attempted_moves_ s') = get k (attempted_moves_ s)) /\
    s' = set_attempted (attempted_moves_ s') s /\
    filter is_executor_call t = [].
Proof.
  intros s.
  assert (HP : 1 <= @PRECISION demo_ext) by (cbn; lia).
  assert (Htot : 0 < TotalMoves s) by reflexivity.
  assert (Hz : get SIX_TWO (attempted_moves_ s) = 0) by reflexivity.
  assert (Hpos : (0 < 1 # 1000)%Q) by reflexivity.
  split; [exact HP|]. split; [exact Htot|]. split; [exact Hz|]. split; [exact Hpos|].
  destruct (never_attempted_kind_accepted_iff demo_ext SIX_TWO (1 # 1000) s HP Htot Hz)
    as (_ & Hrej & Hrun).
  split; [exact (proj2 Hrej Hpos)|].
  exact (Hrun Hpos).
Defined.

(** ** [attempt_move], continued *)

Lemma decr_incr (x : Z) : UIntMax.in_range x -> UIntMax.decr (UIntMax.incr x) = x.
Proof.
  intros Hx. unfold UIntMax.decr, UIntMax.incr, UIntMax.sub, UIntMax.add, UIntMax.wrap.
  rewrite Zminus_mod_idemp_l. replace (x + 1 - 1) with x by lia.
  apply Z.mod_small. exact Hx.
Qed.

Lemma accepted_below (ext : External) (move : move_type)
    (trial trial' : Q) (s : Metropolis) :
  accepted move trial s -> (trial' <= trial)%Q -> accepted move trial' s.
Proof.
  unfold accepted, decision. intros Hacc Hle.
  destruct (value_of (CalculateA1 move) s) as [a1|]; [|discriminate Hacc].
  destruct (value_of (CalculateA2 move) s) as [a2|]; [|discriminate Hacc].
  injection Hacc as Hb. apply f_equal.
  apply Qle_bool_iff. apply Qle_bool_iff in Hb.
  eapply Qle_trans; eassumption.
Qed.

(** The random draw matters only through the comparison: a proposal
    accepted at [trial] is accepted at every smaller draw, with the same
    effect on the object and the same calls. *)
Theorem attempt_move_accepted_below (ext : External) (move : move_type)
    (trial trial' : Q) (s : Metropolis) :
  accepted move trial s -> (trial' <= trial)%Q ->
  accepted move trial' s /\
  attempt_move move trial' s = attempt_move move trial s.
Proof.
  intros Hacc Hle.
  pose proof (accepted_below ext move trial trial' s Hacc Hle) as Hacc'.
  split; [exact Hacc'|].
  rewrite (attempt_move_decided _ _ _ true Hacc).
  rewrite (attempt_move_decided _ _ _ true Hacc'). reflexivity.
Qed.

Lemma attempt_move_accepted_below_witness :
  let s := demo_state (mk_move_tuple 1 1 1 0 0) (mk_move_tuple 1 1 1 0 0) in
  accepted TWO_SIX (1 # 4) s /\ (1 # 8 <= 1 # 4)%Q /\
  accepted TWO_SIX (1 # 8) s /\
  attempt_move TWO_SIX (1 # 8) s = attempt_move TWO_SIX (1 # 4) s.
Proof.
  intros s.
  assert (Hacc : accepted TWO_SIX (1 # 4) s) by (vm_compute; reflexivity).
  assert (Hle : (1 # 8 <= 1 # 4)%Q) by (vm_compute; discriminate).
  split; [exact Hacc|]. split; [exact Hle|].
  exact (attempt_move_accepted_below demo_ext TWO_SIX (1 # 4) (1 # 8) s Hacc Hle).
Defined.

(** An accepted (2,3), (3,2) or (2,6) proposal calls the executor of its
    kind exactly once, adds one (modulo [2^64]) to the successful counter
    of the kind and to no other, moves the counts by (+1, 0, +1),
    (-1, 0, -1) or (+2, +4, 0) modulo [2^64], and leaves the attempted
    counters as the executor returned them. *)
Theorem attempt_move_accepted_effects (ext : External) (move : move_type)
    (trial_double : Q) (s : Metropolis) :
  seeded move = true ->
  accepted move trial_double s ->
  exists s' t,
    attempt_move move trial_double s = Some (tt, s', t) /\
    filter is_executor_call t = [Ev_make_move move] /\
    get move (successful_moves_ s') = (get move (successful_moves_ s) + 1) mod 2 ^ 64 /\
    (forall k, k <> move -> get k (successful_moves_ s') = get k (successful_moves_ s)) /\
    counts s' =
      match move with
      | TWO_THREE =>
          ((N1_TL_ s + 1) mod 2 ^ 64, N3_31_ s, (N3_22_ s + 1) mod 2 ^ 64)
      | THREE_TWO =>
          ((N1_TL_ s - 1) mod 2 ^ 64, N3_31_ s, (N3_22_ s - 1) mod 2 ^ 64)
      | _ =>
          ((N1_TL_ s + 2) mod 2 ^ 64, (N3_31_ s + 4) mod 2 ^ 64, N3_22_ s)
      end /\
    attempted_moves_ s' =
      match move with
      | TWO_THREE =>
          snd (make_23_move (universe_ptr_ s) (simplex_types_ s) (attempted_moves_ s))
      | THREE_TWO =>
          snd (make_32_move (universe_ptr_ s) (edge_types_ s) (attempted_moves_ s))
      | _ =>
          snd (make_26_move (universe_ptr_ s) (simplex_types_ s) (attempted_moves_ s))
      end.
Proof.
  intros Hseed Hacc. rewrite (attempt_move_decided _ _ _ true Hacc).
  destruct (move_accepted_run move s) as (s' & Hrun & Hc & Hs & Ha).
  rewrite Hrun. exists s'. eexists. split; [reflexivity|].
  split.
  { cbn [filter is_executor_call]. rewrite filter_app, CalculateA2_no_executor.
    destruct move; try discriminate; reflexivity. }
  assert (Hs' : successful_moves_ s' = incr_get move (successful_moves_ s))
    by (destruct move; try discriminate; exact Hs).
  split; [rewrite Hs', get_incr_get_same; reflexivity|].
  split; [intros k Hk; rewrite Hs'; now apply get_incr_get_other|].
  destruct move; try discriminate; split; assumption.
Qed.

(** An accepted (2,3) proposal at counts (10, 20, 30) with successful
    counters (1, 1, 1, 0, 0). *)
Lemma attempt_move_accepted_effects_witness :
  let s := demo_state (mk_move_tuple 1 1 1 0 0) (mk_move_tuple 1 1 1 0 0) in
  seeded TWO_THREE = true /\
  accepted TWO_THREE (1 # 4) s /\
  exists s' t,
    attempt_move TWO_THREE (1 # 4) s = Some (tt, s', t) /\
    filter is_executor_call t = [Ev_make_move TWO_THREE] /\
    get TWO_THREE (successful_moves_ s') = 2 /\
    (forall k, k <> TWO_THREE ->
               get k (successful_moves_ s') = get k (successful_moves_ s)) /\
    counts s' = (11, 20, 31) /\
    attempted_moves_ s' = mk_move_tuple 2 1 1 0 0.
Proof.
  intros s.
  assert (Hseed : seeded TWO_THREE = true) by reflexivity.
  assert (Hacc : accepted TWO_THREE (1 # 4) s) by (vm_compute; reflexivity).
  split; [exact Hseed|]. split; [exact Hacc|].
  exact (attempt_move_accepted_effects demo_ext TWO_THREE (1 # 4) s Hseed Hacc).
Defined.

(** An accepted (2,3) move followed by an accepted (3,2) move brings
    the three counts back to where they were. *)
Theorem attempt_move_23_then_32_restores_counts (ext : External)
    (trial1 trial2 : Q) (s s1 : Metropolis) (t1 : list event) :
  UIntMax.in_range (N1_TL_ s) -> UIntMax.in_range (N3_22_ s) ->
  accepted TWO_THREE trial1 s ->
  attempt_move TWO_THREE trial1 s = Some (tt, s1, t1) ->
  accepted THREE_TWO trial2 s1 ->
  exists s2 t2,
    attempt_move THREE_TWO trial2 s1 = Some (tt, s2, t2) /\
    counts s2 = counts s.
Proof.
  intros H1 H22 Hacc1 Hrun1 Hacc2.
  rewrite (attempt_move_decided _ _ _ true Hacc1) in Hrun1.
  destruct (move_accepted_run TWO_THREE s) as (s1' & Hr1 & Hc1 & _).
  rewrite Hr1 in Hrun1. inversion Hrun1; subst s1'.
  rewrite (attempt_move_decided _ _ _ true Hacc2).
  destruct (move_accepted_run THREE_TWO s1) as (s2 & Hr2 & Hc2 & _).
  rewrite Hr2. exists s2. eexists. split; [reflexivity|].
  rewrite Hc2. unfold counts in Hc1. inversion Hc1 as [[Ha Hb Hc]].
  rewrite Ha, Hb, Hc, !decr_incr by assumption. reflexivity.
Qed.

(** An accepted proposal returns, in the state and with the trace that
    the observers report. *)
Lemma attempt_move_accepted_returns (ext : External) (move : move_type)
    (trialval : Q) (s : Metropolis) :
  accepted move trialval s ->
  attempt_move move trialval s =
  Some (tt,
        match state_after (attempt_move move trialval) s with
        | Some x => x
        | None => s
        end,
        trace_of (attempt_move move trialval) s).
Proof.
  intros Hacc. unfold state_after, trace_of.
  rewrite (attempt_move_decided _ _ _ true Hacc).
  destruct (move_accepted_run move s) as (s' & Hrun & _).
  rewrite Hrun. reflexivity.
Qed.

Lemma attempt_move_23_then_32_restores_counts_witness :
  let s := demo_state (mk_move_tuple 1 1 1 0 0) (mk_move_tuple 1 1 1 0 0) in
  let s1 := match state_after (attempt_move TWO_THREE 0) s with
            | Some x => x
            | None => s
            end in
  let t1 := trace_of (attempt_move TWO_THREE 0) s in
  UIntMax.in_range (N1_TL_ s) /\ UIntMax.in_range (N3_22_ s) /\
  accepted TWO_THREE 0 s /\
  attempt_move TWO_THREE 0 s = Some (tt, s1, t1) /\
  accepted THREE_TWO 0 s1 /\
  exists s2 t2,
    attempt_move THREE_TWO 0 s1 = Some (tt, s2, t2) /\
    counts s2 = counts s.
Proof.
  intros s s1 t1.
  assert (H1 : UIntMax.in_range (N1_TL_ s)) by (vm_compute; split; [discriminate | reflexivity]).
  assert (H22 : UIntMax.in_range (N3_22_ s)) by (vm_compute; split; [discriminate | reflexivity]).
  assert (Hacc1 : accepted TWO_THREE 0 s) by (vm_compute; reflexivity).
  assert (Hrun1 : attempt_move TWO_THREE 0 s = Some (tt, s1, t1))
    by (exact (attempt_move_accepted_returns demo_ext TWO_THREE 0 s Hacc1)).
  assert (Hacc2 : accepted THREE_TWO 0 s1) by (vm_compute; reflexivity).
  split; [exact H1|]. split; [exact H22|]. split; [exact Hacc1|].
  split; [exact Hrun1|]. split; [exact Hacc2|].
  exact (attempt_move_23_then_32_restores_counts demo_ext 0 0 s s1 t1
           H1 H22 Hacc1 Hrun1 Hacc2).
Defined.

(** The counts are unsigned: an accepted (3,2) move on an object that
    holds no (2,2) simplex leaves [N3_22_] at [2^64 - 1]. *)
Theorem attempt_move_32_wraps_at_zero (ext : External) (trialval : Q) (s : Metropolis) :
  accepted THREE_TWO trialval s ->
  N3_22_ s = 0 ->
  exists s' t,
    attempt_move THREE_TWO trialval s = Some (tt, s', t) /\
    N3_22_ s' = 18446744073709551615.
Proof.
  intros Hacc Hz. rewrite (attempt_move_decided _ _ _ true Hacc).
  destruct (move_accepted_run THREE_TWO s) as (s' & Hrun & Hc & _).
  rewrite Hrun. exists s'. eexists. split; [reflexivity|].
  unfold counts in Hc. inversion Hc as [[Ha Hb Hd]]. rewrite Hd, Hz. reflexivity.
Qed.

Lemma attempt_move_32_wraps_at_zero_witness :
  let s := set_N3_22 0 (demo_state (mk_move_tuple 1 1 1 0 0) (mk_move_tuple 1 1 1 0 0)) in
  accepted THREE_TWO 0 s /\
  N3_22_ s = 0 /\
  exists s' t,
    attempt_move THREE_TWO 0 s = Some (tt, s', t) /\
    N3_22_ s' = 18446744073709551615.
Proof.
  intros s.
  assert (Hacc : accepted THREE_TWO 0 s) by (vm_compute; reflexivity).
  assert (Hz : N3_22_ s = 0) by reflexivity.
  split; [exact Hacc|]. split; [exact Hz|].
  exact (attempt_move_32_wraps_at_zero demo_ext 0 s Hacc Hz).
Defined.

(** ** [operator()], continued *)

Lemma add_wrap (x k : Z) : UIntMax.add (UIntMax.wrap x) k = UIntMax.wrap (x + k).
Proof.
  unfold UIntMax.add, UIntMax.wrap. apply Z.add_mod_idemp_l. discriminate.
Qed.

Section SeedingFacts.

Context {ext : External}.

Lemma populate_snapshot (universe_ptr : Universe) (s : Metropolis) :
  exists s0,
    populate universe_ptr s = Some (tt, s0, []) /\
    simplex_types_ s0 = classify_simplices universe_ptr /\
    edge_types_ s0 = classify_edges universe_ptr /\
    N1_TL_ s0 = UIntMax.of_size (fst (classify_edges universe_ptr)) /\
    N3_31_ s0 =
      UIntMax.wrap (Z.of_nat (length (fst (fst (classify_simplices universe_ptr)))) +
                    Z.of_nat (length (snd (classify_simplices universe_ptr)))) /\
    N3_22_ s0 = UIntMax.of_size (snd (fst (classify_simplices universe_ptr))).
Proof. eexists. split; [reflexivity|]. repeat split. Qed.

Lemma seed_moves_counts (s : Metropolis) :
  exists s' t,
    seed_moves s = Some (tt, s', t) /\
    simplex_types_ s' = simplex_types_ s /\
    edge_types_ s' = edge_types_ s /\
    N1_TL_ s' = UIntMax.add (UIntMax.decr (UIntMax.incr (N1_TL_ s))) 2 /\
    N3_31_ s' = UIntMax.add (N3_31_ s) 4 /\
    N3_22_ s' = UIntMax.decr (UIntMax.incr (N3_22_ s)).
Proof.
  eexists; eexists. split; [reflexivity|].
  cbn [simplex_types_ edge_types_ N1_TL_ N3_31_ N3_22_ set_N1_TL set_N3_31 set_N3_22
       set_successful set_attempted set_universe].
  repeat split.
Qed.

End SeedingFacts.

(** Whatever the object held before, [operator()] enters its loop with
    the snapshot of the triangulation handed in (taken before the seeding
    moves change it) and with counts derived from that snapshot: the
    timelike edges plus 2, the (3,1) and (1,3) simplices plus 4, and the
    (2,2) simplices, the seeded (2,3) and (3,2) moves cancelling. *)
Theorem operator_call_seeded_counts (ext : External) (universe_ptr : Universe)
    (choice_raw : nat -> Z) (trialval : nat -> Q) (s : Metropolis) :
  exists s' t,
    operator_call_upto 0 universe_ptr choice_raw trialval s = Some (tt, s', t) /\
    simplex_types_ s' = classify_simplices universe_ptr /\
    edge_types_ s' = classify_edges universe_ptr /\
    N1_TL_ s' =
      UIntMax.wrap (Z.of_nat (length (fst (classify_edges universe_ptr))) + 2) /\
    N3_31_ s' =
      UIntMax.wrap (Z.of_nat (length (fst (fst (classify_simplices universe_ptr)))) +
                    Z.of_nat (length (snd (classify_simplices universe_ptr))) + 4) /\
    N3_22_ s' =
      UIntMax.wrap (Z.of_nat (length (snd (fst (classify_simplices universe_ptr))))).
Proof.
  destruct (populate_snapshot universe_ptr s) as (s0 & Hpop & Hst0 & Het0 & H1 & H31 & H22).
  destruct (seed_moves_counts s0) as (s' & t & Hseed & Hst & Het & H1' & H31' & H22').
  exists s', (t ++ []).
  split.
  { unfold operator_call_upto. unfold bind at 1. rewrite Hpop.
    unfold bind at 1. rewrite Hseed. reflexivity. }
  split; [congruence|]. split; [congruence|].
  rewrite H1', H31', H22', H1, H31, H22.
  unfold UIntMax.of_size.
  rewrite !decr_incr by apply wrap_range.
  rewrite !add_wrap. repeat split.
Qed.

Section RunTotals.

Context {ext : External}.

Hypothesis Hexec : executor_counts_once.
Hypothesis HPREC : 1 <= PRECISION.

Lemma sum_attempted_incr (move : move_type) (s s' : Metropolis) :
  0 <= get move (attempted_moves_ s) < UIntMax.modulus - 1 ->
  attempted_moves_ s' = incr_get move (attempted_moves_ s) ->
  sum_attempted s' = sum_attempted s + 1.
Proof.
  intros Hr Ha. unfold sum_attempted. rewrite Ha.
  pose proof (incr_small _ Hr) as Hi.
  destruct move; cbn [get incr_get get0 get1 get2 get3 get4] in *; rewrite Hi; lia.
Qed.

Lemma sum_successful_incr (move : move_type) (s s' : Metropolis) :
  0 <= get move (successful_moves_ s) < UIntMax.modulus - 1 ->
  successful_moves_ s' = incr_get move (successful_moves_ s) ->
  sum_successful s' = sum_successful s + 1.
Proof.
  intros Hr Ha. unfold sum_successful. rewrite Ha.
  pose proof (incr_small _ Hr) as Hi.
  destruct move; cbn [get incr_get get0 get1 get2 get3 get4] in *; rewrite Hi; lia.
Qed.

(** Each [attempt_move] of a seeded kind adds one to the attempted
    total, through the executor when accepted and directly when rejected,
    and adds to the successful total the number of executor calls it
    made. *)
Lemma attempt_move_accounting (n : Z) (move : move_type) (trialval : Q)
    (s s' : Metropolis) (t : list event) :
  seeded move = true ->
  counters_within n s -> n + 1 < UIntMax.modulus ->
  attempt_move move trialval s = Some (tt, s', t) ->
  sum_attempted s' = sum_attempted s + 1 /\
  sum_successful s' = sum_successful s + Z.of_nat (count_executor_calls t).
Proof.
  intros Hseed Hc Hn Hrun.
  destruct (Hc move) as [[Hs0 Hs1] Ha1].
  destruct (decision move trialval s) as [b|] eqn:Hb;
    [|rewrite (attempt_move_undecided _ _ _ Hb) in Hrun; discriminate Hrun].
  rewrite (attempt_move_decided _ _ _ b Hb) in Hrun.
  destruct b.
  - destruct (move_accepted_run move s) as (s1 & Hacc & _).
    rewrite Hacc in Hrun. inversion Hrun; subst s1. subst t.
    destruct (executor_attempted Hexec move s s' _ Hseed Hacc) as (Ha & Hs & _).
    split; [apply (sum_attempted_incr move); [lia | assumption]|].
    rewrite (sum_successful_incr move s s'); [|lia | assumption].
    unfold count_executor_calls. cbn [filter is_executor_call].
    rewrite filter_app, CalculateA2_no_executor.
    destruct move; try discriminate; reflexivity.
  - rewrite move_rejected_run in Hrun. inversion Hrun; subst s'. subst t.
    split; [apply (sum_attempted_incr move); [lia | reflexivity]|].
    unfold count_executor_calls. cbn [filter is_executor_call].
    rewrite filter_app, CalculateA2_no_executor.
    cbn [filter app length Z.of_nat]. unfold sum_successful.
    cbn [successful_moves_ set_attempted]. lia.
Qed.

Variable choice_raw : nat -> Z.
Variable trialval : nat -> Q.

Lemma for_loop_accounting (count : nat) :
  forall (start : nat) (n : Z) (s s' : Metropolis) (t : list event),
    counters_within n s ->
    5 * (n + Z.of_nat count) < UIntMax.modulus ->
    1 <= get TWO_THREE (attempted_moves_ s) ->
    for_loop start count (loop_body choice_raw trialval) s = Some (tt, s', t) ->
    sum_attempted s' = sum_attempted s + Z.of_nat count /\
    sum_successful s' = sum_successful s + Z.of_nat (count_executor_calls t).
Proof.
  induction count as [|count IH]; intros start n s s' t Hc Hn H1 Hrun.
  - cbn in Hrun. inversion Hrun; subst. cbn. lia.
  - assert (Hn0 : 0 <= n) by (destruct (Hc TWO_THREE); lia).
    cbn [for_loop] in Hrun. unfold bind at 1 in Hrun.
    destruct (loop_body_seeded choice_raw trialval start) as (move & Hseed & Hbody).
    rewrite Hbody in Hrun.
    destruct (attempt_move_step Hexec HPREC n move (trialval start) s Hseed Hc)
      as (s1 & t1 & Hrun1 & Hc1 & H11 & _); [lia | assumption |].
    rewrite Hrun1 in Hrun.
    destruct (for_loop (S start) count (loop_body choice_raw trialval) s1)
      as [[[[] s2] t2]|] eqn:Hrun2; [|discriminate Hrun].
    inversion Hrun; subst s2. subst t.
    destruct (attempt_move_accounting n move (trialval start) s s1 t1 Hseed Hc
                ltac:(lia) Hrun1) as [Ha1 Hs1].
    destruct (IH (S start) (n + 1) s1 s' t2 Hc1 ltac:(lia) H11 Hrun2) as [Ha2 Hs2].
    unfold count_executor_calls in *. rewrite filter_app, length_app. lia.
Qed.

End RunTotals.

(** On a freshly constructed object, seeding leaves one attempted and
    one successful move for each of (2,3), (3,2) and (2,6), none for
    (6,2) and (4,4), after exactly one call of each of the three
    executors, in that order. *)
Theorem operator_call_seeds_three_kinds (ext : External) :
  executor_counts_once ->
  forall (universe : Universe) (Alpha K Lambda : Long_double)
         (passes output_every_n_passes : Z)
         (st : Simplex_types) (et : Edge_types)
         (universe_ptr : Universe) (choice_raw : nat -> Z) (trialval : nat -> Q),
  exists s' t,
    operator_call_upto 0 universe_ptr choice_raw trialval
      (Metropolis_ctor universe Alpha K Lambda passes output_every_n_passes st et)
      = Some (tt, s', t) /\
    attempted_moves_ s' = mk_move_tuple 1 1 1 0 0 /\
    successful_moves_ s' = mk_move_tuple 1 1 1 0 0 /\
    t = [Ev_make_move TWO_THREE; Ev_make_move THREE_TWO; Ev_make_move TWO_SIX].
Proof.
  intros Hexec universe Alpha K Lambda passes out st et universe_ptr raw trial.
  set (s0 := Metropolis_ctor universe Alpha K Lambda passes out st et).
  destruct (populate_run universe_ptr s0) as (s1 & Hpop & Ha1 & Hs1 & _).
  destruct (seed_moves_run Hexec s1) as (s2 & Hseed & Ha2 & Hs2 & _).
  exists s2. eexists. split.
  { unfold operator_call_upto. unfold bind at 1. rewrite Hpop.
    unfold bind at 1. rewrite Hseed. reflexivity. }
  rewrite Ha2, Hs2, Ha1, Hs1. repeat split.
Qed.

Lemma operator_call_seeds_three_kinds_witness :
  executor_counts_once (ext := demo_ext) /\
  exists s' t,
    operator_call_upto (ext := demo_ext) 0 0%nat (fun i => Z.of_nat i)
      (fun _ => (1 # 4)%Q) (demo_fresh 1) = Some (tt, s', t) /\
    attempted_moves_ s' = mk_move_tuple 1 1 1 0 0 /\
    successful_moves_ s' = mk_move_tuple 1 1 1 0 0 /\
    t = [Ev_make_move TWO_THREE; Ev_make_move THREE_TWO; Ev_make_move TWO_SIX].
Proof.
  split; [exact demo_executor_counts_once|].
  exact (operator_call_seeds_three_kinds demo_ext demo_executor_counts_once
           0%nat 1%Q 1%Q 1%Q 1 1 ([], [], []) ([], 0)
           0%nat (fun i => Z.of_nat i) (fun _ => (1 # 4)%Q)).
Defined.

(** A run on a freshly constructed object ends with [TotalMoves () = 13]
    (three seeded moves and ten proposals, each counted once whether
    accepted or rejected), with as many successful moves as executor
    calls, and hands back the triangulation the object holds. *)
Theorem operator_call_totals (ext : External) :
  executor_counts_once -> 1 <= PRECISION ->
  forall (universe : Universe) (Alpha K Lambda : Long_double)
         (passes output_every_n_passes : Z)
         (st : Simplex_types) (et : Edge_types)
         (universe_ptr : Universe) (choice_raw : nat -> Z) (trialval : nat -> Q),
  exists r s' t,
    operator_call universe_ptr choice_raw trialval
      (Metropolis_ctor universe Alpha K Lambda passes output_every_n_passes st et)
      = Some (r, s', t) /\
    r = universe_ptr_ s' /\
    TotalMoves s' = 13 /\
    sum_successful s' = Z.of_nat (count_executor_calls t) /\
    3 <= sum_successful s' <= 13.
Proof.
  intros Hexec HPREC universe Alpha K Lambda passes out st et universe_ptr raw trial.
  set (s0 := Metropolis_ctor universe Alpha K Lambda passes out st et).
  pose proof (ctor_counters_within ext universe Alpha K Lambda passes out st et) as Hc0.
  fold s0 in Hc0.
  destruct (populate_run universe_ptr s0) as (s1 & Hpop & Ha1 & Hs1 & _).
  destruct (seed_moves_run Hexec s1) as (s2 & Hseed & Ha2 & Hs2 & _).
  assert (Hc1 : counters_within 0 s1).
  { intros k. rewrite Ha1, Hs1. apply Hc0. }
  destruct (seeded_counters_within 0 s1 s2 Hc1 ltac:(rewrite modulus_value; lia) Ha2 Hs2)
    as (Hc2 & H12 & _).
  destruct (for_loop_run Hexec HPREC raw trial total_simplices_this_pass 0 (0 + 1) s2 Hc2)
    as (s3 & t3 & Hloop & Hc3 & _); [rewrite modulus_value; cbn; lia | assumption |].
  destruct (for_loop_accounting Hexec HPREC raw trial total_simplices_this_pass
              0 (0 + 1) s2 s3 t3 Hc2) as [Hatt Hsucc];
    [rewrite modulus_value; cbn; lia | assumption | assumption |].
  assert (Ha20 : sum_attempted s2 = 3).
  { unfold sum_attempted. rewrite Ha2, Ha1. reflexivity. }
  assert (Hs20 : sum_successful s2 = 3).
  { unfold sum_successful. rewrite Hs2, Hs1. reflexivity. }
  exists (universe_ptr_ s3), s3. eexists. split.
  { unfold operator_call, operator_call_upto. unfold bind at 1. unfold bind at 1.
    rewrite Hpop. unfold bind at 1. rewrite Hseed, Hloop. reflexivity. }
  split; [reflexivity|].
  assert (Htot : TotalMoves s3 = 13).
  { rewrite (TotalMoves_small (0 + 1 + Z.of_nat total_simplices_this_pass) s3 Hc3)
      by (rewrite modulus_value; cbn; lia).
    fold (sum_attempted s3). rewrite Hatt, Ha20. reflexivity. }
  split; [exact Htot|].
  assert (Hcalls : count_executor_calls
                     (([] ++
                       [Ev_make_move TWO_THREE; Ev_make_move THREE_TWO; Ev_make_move TWO_SIX] ++
                       t3) ++ [])
                   = (3 + count_executor_calls t3)%nat).
  { rewrite app_nil_r. reflexivity. }
  rewrite Hcalls, Hsucc, Hs20.
  split; [lia|].
  assert (Hle : sum_successful s3 <= sum_attempted s3).
  { unfold sum_successful, sum_attempted.
    pose proof (Hc3 TWO_THREE). pose proof (Hc3 THREE_TWO). pose proof (Hc3 TWO_SIX).
    pose proof (Hc3 SIX_TWO). pose proof (Hc3 FOUR_FOUR). cbn [get] in *. lia. }
  rewrite Hsucc, Hs20, Hatt, Ha20 in Hle.
  unfold total_simplices_this_pass in Hle. lia.
Qed.

Lemma operator_call_totals_witness :
  executor_counts_once (ext := demo_ext) /\
  1 <= @PRECISION demo_ext /\
  exists r s' t,
    operator_call (ext := demo_ext) 0%nat (fun i => Z.of_nat i) (fun _ => (1 # 4)%Q)
      (demo_fresh 1) = Some (r, s', t) /\
    r = universe_ptr_ s' /\
    TotalMoves s' = 13 /\
    sum_successful s' = Z.of_nat (count_executor_calls t) /\
    3 <= sum_successful s' <= 13.
Proof.
  assert (H1 : 1 <= @PRECISION demo_ext) by (cbn; lia).
  split; [exact demo_executor_counts_once|]. split; [exact H1|].
  exact (operator_call_totals demo_ext demo_executor_counts_once H1
           0%nat 1%Q 1%Q 1%Q 1 1 ([], [], []) ([], 0)
           0%nat (fun i => Z.of_nat i) (fun _ => (1 # 4)%Q)).
Defined.

(** ** Delaunay.h *)

Lemma CountVertices_loop_run (Vertex : Type) (vertices : list Vertex) :
  forall c : Z,
    0 <= c -> c + Z.of_nat (length vertices) <= INT_MAX ->
    CountVertices_loop vertices c =
    Some (c + Z.of_nat (length vertices),
          map (fun i => c + Z.of_nat i) (seq 1 (length vertices))).
Proof.
  induction vertices as [|v rest IH]; intros c Hc Hmax.
  - cbn. rewrite Z.add_0_r. reflexivity.
  - cbn [CountVertices_loop length] in *.
    assert (Hlt : (c <? INT_MAX) = true) by (apply Z.ltb_lt; lia).
    rewrite Hlt. rewrite IH by lia.
    replace (c + Z.of_nat (S (length rest))) with (c + 1 + Z.of_nat (length rest)) by lia.
    do 2 f_equal.
    cbn [seq map]. f_equal; try lia.
    rewrite <- (seq_shift (length rest) 1), map_map.
    apply map_ext. intros i. lia.
Qed.

(** [CountVertices] returns the number of vertices of the triangulation
    and prints the lines "Point #1" to "Point #n" in this order; an
    empty triangulation gives 0 and prints nothing. *)
Theorem CountVertices_counts (Vertex : Type) (vertices : list Vertex) :
  Z.of_nat (length vertices) <= INT_MAX ->
  CountVertices vertices =
  Some (Z.of_nat (length vertices), map Z.of_nat (seq 1 (length vertices))).
Proof.
  intros Hmax. unfold CountVertices.
  rewrite CountVertices_loop_run by lia. reflexivity.
Qed.

Lemma CountVertices_counts_witness :
  Z.of_nat (length [true; false; true]) <= INT_MAX /\
  CountVertices [true; false; true] = Some (3, [1; 2; 3]).
Proof.
  assert (H : Z.of_nat (length [true; false; true]) <= INT_MAX)
    by (vm_compute; discriminate).
  split; [exact H|].
  exact (CountVertices_counts bool [true; false; true] H).
Defined.

(** ** The snapshot of movable elements *)

Section SnapshotFacts.

Context {ext : External}.

Lemma move_accepted_keeps_snapshot (move : move_type) (s s' : Metropolis)
    (t : list event) :
  move_accepted move s = Some (tt, s', t) ->
  simplex_types_ s' = simplex_types_ s /\ edge_types_ s' = edge_types_ s.
Proof.
  destruct move; intros Hrun;
    cbv [move_accepted bind call_make_23_move call_make_32_move
         call_make_26_move modify ret] in Hrun;
    inversion Hrun; subst; split; reflexivity.
Qed.

(** [attempt_move] never refreshes the snapshot, not even after an
    accepted move has changed the triangulation. *)
Lemma attempt_move_keeps_snapshot (move : move_type) (trialval : Q)
    (s s' : Metropolis) (t : list event) :
  attempt_move move trialval s = Some (tt, s', t) ->
  simplex_types_ s' = simplex_types_ s /\ edge_types_ s' = edge_types_ s.
Proof.
  intros Hrun.
  destruct (decision move trialval s) as [b|] eqn:Hb;
    [|rewrite (attempt_move_undecided _ _ _ Hb) in Hrun; discriminate Hrun].
  rewrite (attempt_move_decided _ _ _ b Hb) in Hrun.
  destruct b.
  - destruct (move_accepted move s) as [[[[] s1] t1]|] eqn:Hacc; [|discriminate Hrun].
    inversion Hrun; subst s1.
    apply (move_accepted_keeps_snapshot move s s' t1 Hacc).
  - rewrite move_rejected_run in Hrun. inversion Hrun; subst s'.
    split; reflexivity.
Qed.

Lemma for_loop_keeps_snapshot (choice_raw : nat -> Z) (trialval : nat -> Q)
    (count : nat) :
  forall (start : nat) (s s' : Metropolis) (t : list event),
    for_loop start count (loop_body choice_raw trialval) s = Some (tt, s', t) ->
    simplex_types_ s' = simplex_types_ s /\ edge_types_ s' = edge_types_ s.
Proof.
  induction count as [|count IH]; intros start s s' t Hrun.
  - cbn in Hrun. inversion Hrun; subst. split; reflexivity.
  - cbn [for_loop] in Hrun. unfold bind at 1 in Hrun.
    destruct (loop_body_seeded choice_raw trialval start) as (move & _ & Hbody).
    rewrite Hbody in Hrun.
    destruct (attempt_move move (trialval start) s) as [[[[] s1] t1]|] eqn:Hstep;
      [|discriminate Hrun].
    destruct (for_loop (S start) count (loop_body choice_raw trialval) s1)
      as [[[[] s2] t2]|] eqn:Hrest; [|discriminate Hrun].
    inversion Hrun; subst s2.
    destruct (attempt_move_keeps_snapshot move _ s s1 t1 Hstep) as [Ha Hb].
    destruct (IH (S start) s1 s' t2 Hrest) as [Hc Hd].
    split; congruence.
Qed.

End SnapshotFacts.

(** The snapshot of movable elements is taken once per call of
    [operator()]: when the call returns, [simplex_types_] and
    [edge_types_] are still the classification of the triangulation that
    was handed in, whatever moves the run has made on it. *)
Theorem operator_call_snapshot_taken_once (ext : External) :
  executor_counts_once -> 1 <= PRECISION ->
  forall (universe : Universe) (Alpha K Lambda : Long_double)
         (passes output_every_n_passes : Z)
         (st : Simplex_types) (et : Edge_types)
         (universe_ptr : Universe) (choice_raw : nat -> Z) (trialval : nat -> Q),
  exists r s' t,
    operator_call universe_ptr choice_raw trialval
      (Metropolis_ctor universe Alpha K Lambda passes output_every_n_passes st et)
      = Some (r, s', t) /\
    simplex_types_ s' = classify_simplices universe_ptr /\
    edge_types_ s' = classify_edges universe_ptr.
Proof.
  intros Hexec HPREC universe Alpha K Lambda passes out st et universe_ptr raw trial.
  set (s0 := Metropolis_ctor universe Alpha K Lambda passes out st et).
  pose proof (ctor_counters_within ext universe Alpha K Lambda passes out st et) as Hc0.
  fold s0 in Hc0.
  destruct (populate_run universe_ptr s0) as (s1 & Hpop & Ha1 & Hs1 & _).
  destruct (populate_snapshot universe_ptr s0) as (s1' & Hpop' & Hst1 & Het1 & _).
  rewrite Hpop in Hpop'. inversion Hpop'; subst s1'.
  destruct (seed_moves_run Hexec s1) as (s2 & Hseed & Ha2 & Hs2 & _).
  destruct (seed_moves_counts s1) as (s2' & t2' & Hseed' & Hst2 & Het2 & _).
  rewrite Hseed in Hseed'. inversion Hseed'; subst s2'.
  assert (Hc1 : counters_within 0 s1).
  { intros k. rewrite Ha1, Hs1. apply Hc0. }
  destruct (seeded_counters_within 0 s1 s2 Hc1 ltac:(rewrite modulus_value; lia) Ha2 Hs2)
    as (Hc2 & H12 & _).
  destruct (for_loop_run Hexec HPREC raw trial total_simplices_this_pass 0 (0 + 1) s2 Hc2)
    as (s3 & t3 & Hloop & _); [rewrite modulus_value; cbn; lia | assumption |].
  destruct (for_loop_keeps_snapshot raw trial _ 0%nat s2 s3 t3 Hloop) as [Ha Hb].
  exists (universe_ptr_ s3), s3. eexists. split.
  { unfold operator_call, operator_call_upto. unfold bind at 1. unfold bind at 1.
    rewrite Hpop. unfold bind at 1. rewrite Hseed, Hloop. reflexivity. }
  split; congruence.
Qed.

Lemma operator_call_snapshot_taken_once_witness :
  executor_counts_once (ext := demo_ext) /\
  1 <= @PRECISION demo_ext /\
  exists r s' t,
    operator_call (ext := demo_ext) 0%nat (fun i => Z.of_nat i) (fun _ => (1 # 4)%Q)
      (demo_fresh 1) = Some (r, s', t) /\
    simplex_types_ s' = @classify_simplices demo_ext 0%nat /\
    edge_types_ s' = @classify_edges demo_ext 0%nat.
Proof.
  assert (H1 : 1 <= @PRECISION demo_ext) by (cbn; lia).
  split; [exact demo_executor_counts_once|]. split; [exact H1|].
  exact (operator_call_snapshot_taken_once demo_ext demo_executor_counts_once H1
           0%nat 1%Q 1%Q 1%Q 1 1 ([], [], []) ([], 0)
           0%nat (fun i => Z.of_nat i) (fun _ => (1 # 4)%Q)).
Defined.
